(** * Stonehenge: the L2 trigger core, embedded from curl.cpp and stonehenge.cpp

    The development follows the two source files.  [Curl] embeds the
    rate-limited alarm channel of curl.cpp.  [Stonehenge] embeds the clock
    reconciliation ([IsConsistent], [compute_times]), the threshold
    controller ([setthreshold]), the filter ([l2filter]), the record decoder
    ([ReadHits]) and one iteration of the record loop of [main].

    Conventions.  A C [uint64_t], [uint32_t] or [uint16_t] is a [Z] with its
    wrap-around written out ([u64], [u32], [u16]).  A C [int] that only
    counts (histogram buckets, alarm counters, epoch) is a [Z]; signed
    overflow is undefined in C and is not modelled.  Calls into the parts of
    the program that live in other files (the output writer, the burst
    buffer, Redis, the HTTP transport) are recorded, in order, in a trace of
    effects. *)

From stdpp Require Import base list strings.
From Stdlib Require Import ZArith Lia DecimalString Sorting.Sorted.

Local Open Scope Z_scope.

(** [printf]'s [%d]. *)
Definition dec (z : Z) : string := NilZero.string_of_int (Z.to_int z).

(** The line feed that ends most of the program's messages. *)
Definition nl : string := String (Ascii.ascii_of_nat 10) EmptyString.

(* ===================================================================== *)
(** * curl.cpp *)
(* ===================================================================== *)

Module Curl.

(** Modelled from the spec: the enumeration [alarm_type] of curl.h, which is
    not among the sources; the five severity classes in the order of the
    budget table [max]. *)
Inductive alarm_type := DEBUG | INFO | SUCCESS | WARNING | ERROR.

(** The enumerator's value, used as the array index. *)
Definition index (a : alarm_type) : nat :=
  match a with
  | DEBUG => 0 | INFO => 1 | SUCCESS => 2 | WARNING => 3 | ERROR => 4
  end%nat.

(** [static const int max[5]]: messages allowed per second. *)
Definition max : list Z := [5; 3; 2; 5; 1].

(** The file's mutable statics. *)
Record state := mkState {
  alarmn : list Z;        (* messages in the last second *)
  overflow : list Z;      (* overflow messages *)
  oldwalltime : Z
}.

Definition initial : state :=
  {| alarmn := [0; 0; 0; 0; 0]; overflow := [0; 0; 0; 0; 0]; oldwalltime := 0 |}.

(** [alarm_type type(const int level)] *)
Definition type (level : Z) : alarm_type :=
  if decide (level = 20) then INFO
  else if decide (level = 21) then SUCCESS
  else if decide (level = 30) then WARNING
  else if decide (level = 40) then ERROR
  else DEBUG.

(** The body handed to [CURLOPT_POSTFIELDS] for a forwarded message. *)
Definition curlmsg (level : Z) (msg : string) : string :=
  "name=L2-client&level=" +:+ dec level +:+ "&message=" +:+ msg.

(** The body of the overflow report. *)
Definition overflowmsg (overflowsum : Z) : string :=
  "name=L2-client&level=40&message="
    +:+ ("ERROR OVERFLOW: " +:+ dec overflowsum +:+ " messages skipped").

(** One turn of [for(int i=0; i<5; i++)] in the flush. *)
Definition flush_step (acc : Z * list Z * list Z) (i : nat) : Z * list Z * list Z :=
  let '(overflowsum, ov, an) := acc in
  (overflowsum + ov !!! i, <[i := 0]> ov, <[i := 0]> an).

Definition flush_loop (s : state) : Z * list Z * list Z :=
  foldl flush_step (0, overflow s, alarmn s) (seq 0 5).

(** The [if(walltime != oldwalltime)] block: the state it leaves and the
    posts it performs. *)
Definition flush (walltime : Z) (s : state) : state * list string :=
  if decide (walltime ≠ oldwalltime s) then
    let '(overflowsum, ov, an) := flush_loop s in
    ({| alarmn := an; overflow := ov; oldwalltime := walltime |},
     if decide (overflowsum ≠ 0) then [overflowmsg overflowsum] else [])
  else (s, []).

(** [void alarm(const int level, const char* msg)], with the value of
    [time(NULL)] as an argument.  It returns the new statics and the list of
    bodies posted, in order. *)
Definition alarm (walltime level : Z) (msg : string) (s : state)
  : state * list string :=
  let '(s1, posts) := flush walltime s in
  let t := index (type level) in
  let an := <[t := alarmn s1 !!! t + 1]> (alarmn s1) in
  if decide (an !!! t > max !!! t) then
    ({| alarmn := an;
        overflow := <[t := overflow s1 !!! t + 1]> (overflow s1);
        oldwalltime := oldwalltime s1 |}, posts)
  else
    ({| alarmn := an; overflow := overflow s1; oldwalltime := oldwalltime s1 |},
     posts ++ [curlmsg level msg]).

(** A sequence of requests, each with its wall-clock second. *)
Fixpoint alarms (reqs : list (Z * Z * string)) (s : state) : state * list string :=
  match reqs with
  | [] => (s, [])
  | (walltime, level, msg) :: rest =>
      let '(s1, p1) := alarm walltime level msg s in
      let '(s2, p2) := alarms rest s1 in
      (s2, p1 ++ p2)
  end.

(** The classes whose suppressed count is not zero. *)
Definition suppressed_classes (s : state) : list Z :=
  filter (λ n, n ≠ 0) (overflow s).

(** The two five-element arrays have their declared size and hold counts. *)
Definition wf (s : state) : Prop :=
  length (alarmn s) = 5%nat ∧ length (overflow s) = 5%nat
  ∧ Forall (λ n, 0 ≤ n) (overflow s).

(** The requests of one class in one second. *)
Definition burst (walltime level : Z) (msgs : list string) : list (Z * Z * string) :=
  (λ m, (walltime, level, m)) <$> msgs.

(** The per-second budget of the class of [level]. *)
Definition budget (level : Z) : Z := max !!! index (type level).

(** Counters after a flush. *)
Definition zeros : list Z := [0; 0; 0; 0; 0].

(** The flush as the specification words it: one report for every class
    with a nonzero suppressed count, each with that class's count. *)
Definition per_class_reports (s : state) : list string :=
  overflowmsg <$> suppressed_classes s.

(** Example value: a second in which one debug and two warning messages
    were suppressed. *)
Definition stormy : state :=
  {| alarmn := [6; 0; 0; 7; 0]; overflow := [1; 0; 0; 2; 0]; oldwalltime := 0 |}.

(** ** Accounting over a run of requests *)

(** Sum of an array of counters. *)
Definition total (l : list Z) : Z := foldr Z.add 0 l.

(** Every request of the run carries the wall-clock second [w]. *)
Definition in_second (w : Z) (reqs : list (Z * Z * string)) : Prop :=
  Forall (λ r, r.1.1 = w) reqs.

(** The messages the budgets still allow in the running second. *)
Definition room (s : state) : Z :=
  total (zip_with (λ m n, Z.max 0 (m - n)) max (alarmn s)).

(** The arrays have their declared size and every counter is a count. *)
Definition counting (s : state) : Prop :=
  length (alarmn s) = 5%nat ∧ length (overflow s) = 5%nat
  ∧ Forall (λ n, 0 ≤ n) (alarmn s) ∧ Forall (λ n, 0 ≤ n) (overflow s).

End Curl.

(* ===================================================================== *)
(** * stonehenge.cpp *)
(* ===================================================================== *)

Module Stonehenge.

(** ** Machine integers *)

Definition u64 (z : Z) : Z := z mod 2 ^ 64.
Definition u32 (z : Z) : Z := z mod 2 ^ 32.
Definition u16 (z : Z) : Z := z mod 2 ^ 16.

(** Conversion of an unsigned 64-bit value to [int]: the low 32 bits, read
    as two's complement. *)
Definition to_int (z : Z) : Z := (z + 2 ^ 31) mod 2 ^ 32 - 2 ^ 31.

(** ** Constants *)

Definition MAX_BUFFSIZE : Z := 0x400000.
Definition MAX_NHIT : Z := 10240.

(** Tells us when the 50MHz clock rolls over. *)
Definition maxtime : Z := Z.shiftl 1 43.
(** Maximum time allowed between events without a complaint. *)
Definition maxjump : Z := 10 * 50000000.
(** Maximum time drift allowed between two clocks without a complaint. *)
Definition maxdrift : Z := 5000.

(** ** Structures

    Modelled from the spec: the declarations of [alltimes], [hitinfo],
    [counts], [l2stats] and [configuration] are in headers that are not
    among the sources.  The fields are the ones the two source files use;
    the tick counters are 64-bit unsigned, as the expressions that fill
    them, and the configuration parameters are [int]s, as [WriteConfig]
    prints them. *)

Record alltimes := mkAlltimes {
  time10 : Z;        (* uint64_t *)
  time50 : Z;        (* uint64_t *)
  longtime : Z;      (* uint64_t *)
  epoch : Z;         (* int *)
  walltime : Z;      (* int *)
  oldwalltime : Z;   (* int *)
  exptime : Z        (* uint64_t *)
}.

Record hitinfo := mkHitinfo {
  hit_time50 : Z;    (* uint64_t time50 *)
  hit_time10 : Z;    (* uint64_t time10 *)
  triggertype : Z;   (* uint32_t *)
  nhit : Z;          (* uint16_t *)
  reclen : Z;        (* uint32_t *)
  hit_gtid : Z;      (* uint32_t gtid *)
  run : Z            (* uint32_t *)
}.

Record counts := mkCounts {
  eventn : Z;        (* unsigned long *)
  recordn : Z        (* unsigned long *)
}.

Record l2stats := mkL2stats {
  l1 : Z;
  l2 : Z;
  orphan : Z;
  burstbool : bool
}.

Record configuration := mkConfiguration {
  nhithi : Z;
  nhitlo : Z;
  lothresh : Z;
  lowindow : Z;
  retrigcut : Z;
  retrigwindow : Z;
  bitmask : Z;       (* uint32_t *)
  nhitbcut : Z;
  burstwindow : Z;
  burstsize : Z;
  endrate : Z
}.

(** A record as [PZdabFile::NextRecord] hands it over: the bank name of the
    [nZDAB] header and the 32-bit words that follow the header in the
    buffer ([zrec + 1]), each as the value the host reads there. *)
Record nZDAB := mkNZDAB {
  bank_name : Z;
  data : list Z
}.

(** ** Effects

    What the program does to the outside, in order of occurrence. *)
Inductive effect :=
| Alarm (level : Z) (msg : string) (n : Z)   (* alarm(level, msg, n) *)
| Stderr (msg : string)                      (* fprintf(stderr, msg) *)
| Checkbuffer (t : Z)
| ClearBuffer (t : Z)
| WriteConfig (c : configuration)
| Gtid (h : hitinfo)
| Writetoredis (s : l2stats) (t : Z)
| Flusherrors
| UpdateBuf (t : Z) (window : Z)
| AddEvBuf (r : nZDAB) (t : Z) (bytes : Z)
| Burstfile (c : configuration) (a : alltimes)
| OutZdab (r : nZDAB).

(** Setters for the fields the code assigns. *)
Definition set_time50 (v : Z) (a : alltimes) : alltimes :=
  mkAlltimes (time10 a) v (longtime a) (epoch a) (walltime a) (oldwalltime a) (exptime a).
Definition set_time10 (v : Z) (a : alltimes) : alltimes :=
  mkAlltimes v (time50 a) (longtime a) (epoch a) (walltime a) (oldwalltime a) (exptime a).
Definition set_longtime (v : Z) (a : alltimes) : alltimes :=
  mkAlltimes (time10 a) (time50 a) v (epoch a) (walltime a) (oldwalltime a) (exptime a).
Definition set_epoch (v : Z) (a : alltimes) : alltimes :=
  mkAlltimes (time10 a) (time50 a) (longtime a) v (walltime a) (oldwalltime a) (exptime a).
Definition set_exptime (v : Z) (a : alltimes) : alltimes :=
  mkAlltimes (time10 a) (time50 a) (longtime a) (epoch a) (walltime a) (oldwalltime a) v.
Definition set_walltime (v : Z) (a : alltimes) : alltimes :=
  mkAlltimes (time10 a) (time50 a) (longtime a) (epoch a) v (oldwalltime a) (exptime a).
Definition set_oldwalltime (v : Z) (a : alltimes) : alltimes :=
  mkAlltimes (time10 a) (time50 a) (longtime a) (epoch a) (walltime a) v (exptime a).

Definition incr_orphan (s : l2stats) : l2stats :=
  mkL2stats (l1 s) (l2 s) (orphan s + 1) (burstbool s).
Definition incr_l1 (s : l2stats) : l2stats :=
  mkL2stats (l1 s + 1) (l2 s) (orphan s) (burstbool s).
Definition incr_l2 (s : l2stats) : l2stats :=
  mkL2stats (l1 s) (l2 s + 1) (orphan s) (burstbool s).
Definition or_burstbool (b : bool) (s : l2stats) : l2stats :=
  mkL2stats (l1 s) (l2 s) (orphan s) (burstbool s || b).

(** ** IsConsistent *)

Definition msg_backward : string := "Stonehenge: Time running backward!" +:+ nl.
Definition msg_gap : string := "Stonehenge: Large time gap between events!" +:+ nl.

(** The second test of [IsConsistent]: time has not jumped too far ahead.
    The subtraction is on [uint64_t]. *)
Definition jump_check (newat standard : alltimes) (eff : list effect)
  : bool * alltimes * list effect :=
  if decide (u64 (time50 newat - time50 standard) > maxjump) then
    (false, newat, eff ++ [Alarm 30 msg_gap 0; Stderr msg_gap])
  else (true, newat, eff).

(** The rollover test of [IsConsistent]. *)
Definition rollover_ok (newat standard : alltimes) (dd : Z) : Prop :=
  u64 (time50 standard + time50 newat) < u64 (maxtime + maxjump)
  ∧ dd < maxdrift
  ∧ time50 standard > u64 (maxtime - maxjump).

#[global] Instance rollover_ok_dec newat standard dd :
  Decision (rollover_ok newat standard dd).
Proof. unfold rollover_ok. apply _. Defined.

(** [bool IsConsistent(alltimes & newat, alltimes standard, const int dd)]:
    the result, [newat] as the call leaves it, and the effects. *)
Definition IsConsistent (newat standard : alltimes) (dd : Z)
  : bool * alltimes * list effect :=
  if decide (time50 newat < time50 standard) then
    if decide (rollover_ok newat standard dd) then
      jump_check (set_epoch (epoch newat + 1) newat) standard
        [Stderr ("New Epoch" +:+ nl); Alarm 20 "Stonehenge: new epoch." 0]
    else
      (false, newat, [Alarm 30 msg_backward 0; Stderr msg_backward])
  else jump_check newat standard [].

(** ** compute_times *)

(** What [compute_times] reaches besides its two value arguments: the
    by-reference arguments [passretrig], [retrig] and [stat], its two
    function statics [standard] and [problem], and the file statics
    [config] and [NHITCUT]. *)
Record clock := mkClock {
  config : configuration;
  NHITCUT : Z;
  standard : alltimes;   (* previous unproblematic timestamp *)
  problem : bool;        (* was there a problem with the previous timestamp? *)
  passretrig : bool;
  retrig : bool;
  stat : l2stats
}.

Definition set_standard (a : alltimes) (c : clock) : clock :=
  mkClock (config c) (NHITCUT c) a (problem c) (passretrig c) (retrig c) (stat c).
Definition set_problem (b : bool) (c : clock) : clock :=
  mkClock (config c) (NHITCUT c) (standard c) b (passretrig c) (retrig c) (stat c).
Definition set_NHITCUT (v : Z) (c : clock) : clock :=
  mkClock (config c) v (standard c) (problem c) (passretrig c) (retrig c) (stat c).
Definition set_config (v : configuration) (c : clock) : clock :=
  mkClock v (NHITCUT c) (standard c) (problem c) (passretrig c) (retrig c) (stat c).
Definition set_passretrig (b : bool) (c : clock) : clock :=
  mkClock (config c) (NHITCUT c) (standard c) (problem c) b (retrig c) (stat c).
Definition set_retrig (b : bool) (c : clock) : clock :=
  mkClock (config c) (NHITCUT c) (standard c) (problem c) (passretrig c) b (stat c).
Definition set_stat (s : l2stats) (c : clock) : clock :=
  mkClock (config c) (NHITCUT c) (standard c) (problem c) (passretrig c) (retrig c) s.

(** The drift [dd] between the two clocks. *)
Definition drift (oldat newat : alltimes) : Z :=
  let d10 := u64 (u64 (time10 oldat - time10 newat) * 5) in
  let d50 := u64 (time50 oldat - time50 newat) in
  to_int (if decide (d10 > d50) then u64 (d10 - d50) else u64 (d50 - d10)).

Definition msg_drift (dd : Z) : string :=
  "Stonehenge: The 50MHz clock jumped by " +:+ dec dd
    +:+ " ticks relative to the 10MHz clock!" +:+ nl.

Definition msg_reset : string :=
  "Stonehenge: Events out of order - Resetting buffers.".

(** The retrigger test: [0 < dt <= config.retrigwindow] on [uint64_t]. *)
Definition is_retrigger (c : configuration) (oldat newat : alltimes) : Prop :=
  u64 (time50 newat - time50 oldat) > 0
  ∧ u64 (time50 newat - time50 oldat) ≤ u64 (retrigwindow c).

#[global] Instance is_retrigger_dec c oldat newat :
  Decision (is_retrigger c oldat newat).
Proof. unfold is_retrigger. apply _. Defined.

(** [newat] once the two clock values of the hit are stored in the copy of
    [oldat]. *)
Definition reading (hits : hitinfo) (oldat : alltimes) : alltimes :=
  set_time10 (hit_time10 hits) (set_time50 (hit_time50 hits) oldat).

(** The branch for the first event. *)
Definition first_event (hits : hitinfo) (oldat : alltimes) (c : clock)
  : alltimes * clock * list effect :=
  let newat := reading hits oldat in
  let c1 := if decide (time50 newat = 0) then set_stat (incr_orphan (stat c)) c else c in
  let newat := set_longtime (time50 newat) newat in
  (newat, set_problem false (set_standard newat c1), [Checkbuffer (time50 newat)]).

(** The well-orderedness test and its three outcomes. *)
Definition well_ordered (newat : alltimes) (dd : Z) (c : clock)
  : alltimes * clock * list effect :=
  let '(ok, newat, eff) := IsConsistent newat (standard c) dd in
  if ok then
    let newat := set_longtime (u64 (time50 newat + u64 (maxtime * epoch newat))) newat in
    (newat, set_problem false (set_standard newat c), eff)
  else if problem c then
    (* RESET EVERYTHING *)
    let newat := set_exptime 0 (set_longtime (time50 newat) (set_epoch 0 newat)) in
    (newat,
     set_problem false (set_standard newat (set_NHITCUT (nhithi (config c)) c)),
     eff ++ [Alarm 40 msg_reset 3; ClearBuffer (longtime (standard c))])
  else
    (standard c, set_problem true c, eff).

(** The branch for every later event. *)
Definition later_event (hits : hitinfo) (oldat : alltimes) (c : clock)
  : alltimes * clock * list effect :=
  let newat := reading hits oldat in
  let dd := drift oldat newat in
  let eff := if decide (dd > maxdrift)
             then [Alarm 30 (msg_drift dd) 0; Stderr (msg_drift dd)] else [] in
  let c1 := if decide (is_retrigger (config c) oldat newat)
            then set_retrig true c
            else set_passretrig false (set_retrig false c) in
  if decide (time50 newat = 0) then
    (set_time50 (time50 oldat) newat, set_stat (incr_orphan (stat c1)) c1, eff)
  else
    let '(newat, c2, eff2) := well_ordered newat dd c1 in
    (newat, c2, eff ++ eff2).

(** [static alltimes compute_times(hitinfo hits, alltimes oldat,
    counts & count, bool & passretrig, bool & retrig, l2stats & stat,
    PZdabWriter* & b)] *)
Definition compute_times (hits : hitinfo) (oldat : alltimes) (count : counts)
    (c : clock) : alltimes * clock * list effect :=
  if decide (eventn count = 1) then first_event hits oldat c
  else later_event hits oldat c.

(** The reading of [hits] fails the well-orderedness test against the
    last good time. *)
Definition rejected (hits : hitinfo) (oldat : alltimes) (c : clock) : Prop :=
  (IsConsistent (reading hits oldat) (standard c)
                (drift oldat (reading hits oldat))).1.1 = false.

(** The forced resets in a trace: the calls of [ClearBuffer]. *)
Definition is_reset (e : effect) : bool :=
  match e with ClearBuffer _ => true | _ => false end.
Definition resets (eff : list effect) : nat := length (List.filter is_reset eff).

(** ** l2filter *)

(** One turn of [for(int i=0; i<8; i++)]. *)
Definition bucket_step (key : Z) (stats : list Z) (i : nat) : list Z :=
  if decide (key = Z.of_nat i) then <[i := stats !!! i + 1]> stats else stats.

(** The three cuts: [pass] and [key] after the three [if]s. *)
Definition l2cuts (nhit word : Z) (passretrig retrig : bool) (NHITCUT : Z)
    (cfg : configuration) : bool * Z :=
  let '(pass, key) := (false, 0) in
  let '(pass, key) :=
    if decide (nhit > NHITCUT) then (true, key + 1) else (pass, key) in
  let '(pass, key) :=
    if decide (Z.land word (bitmask cfg) ≠ 0) then (true, key + 2)
    else (pass, key) in
  let '(pass, key) :=
    if decide (passretrig = true ∧ retrig = true ∧ nhit > retrigcut cfg)
    then (true, key + 4) else (pass, key) in
  (pass, key).

(** [bool l2filter(const uint16_t nhit, const uint32_t word,
    const bool passretrig, const bool retrig, int stats[])], with the file
    statics [NHITCUT] and [config] it reads: the value returned and the
    array as it leaves it. *)
Definition l2filter (nhit word : Z) (passretrig retrig : bool) (stats : list Z)
    (NHITCUT : Z) (cfg : configuration) : bool * list Z :=
  let '(pass, key) := l2cuts nhit word passretrig retrig NHITCUT cfg in
  (pass, foldl (bucket_step key) stats (seq 0 8)).

(** ** setthreshold and updatetime *)

(** [static void setthreshold(uint16_t nhit, alltimes & alltime)], with the
    file statics [config] (read) and [NHITCUT] (written). *)
Definition setthreshold (nhit : Z) (alltime : alltimes) (cfg : configuration)
    (cut : Z) : alltimes * Z :=
  let '(alltime, cut) :=
    if decide (nhit > lothresh cfg) then
      (set_exptime (u64 (longtime alltime + lowindow cfg)) alltime, nhitlo cfg)
    else (alltime, cut) in
  if decide (longtime alltime > exptime alltime) then (alltime, nhithi cfg)
  else (alltime, cut).

(** The controller over a run of records, each given by its hit count and
    its [longtime]; between two records only [longtime] changes.  The
    result lists the cut each record is filtered with. *)
Fixpoint cuts (cfg : configuration) (recs : list (Z * Z)) (alltime : alltimes)
    (cut : Z) : list Z :=
  match recs with
  | [] => []
  | (nhit, t) :: rest =>
      let '(alltime, cut) := setthreshold nhit (set_longtime t alltime) cfg cut in
      cut :: cuts cfg rest alltime cut
  end.

(** No record of the run arms the window. *)
Definition idle (cfg : configuration) (recs : list (Z * Z)) : Prop :=
  Forall (λ r, r.1 ≤ lothresh cfg) recs.

(** [static void updatetime(alltimes & alltime)], with [(int) time(NULL)]
    as an argument. *)
Definition updatetime (now : Z) (alltime : alltimes) : alltimes :=
  let alltime := if decide (walltime alltime ≠ 0)
                 then set_oldwalltime (walltime alltime) alltime else alltime in
  set_walltime now alltime.

(** ** ReadHits *)

(** Modelled from the spec: the macros [ZDAB_RECORD], [SUB_NOT_LAST],
    [SUB_LENGTH_MASK], [SWAP_INT32] and [SWAP_PMT_RECORD] and the layout of
    [PmtEventRecord] come from PZdabFile.h, which is not among the sources.
    The spec gives their shape: a sub-record header holds the word count to
    the next header in its low bits and a more-follow flag above them, and
    the byte-order flip is its own inverse.  The widths are those of the
    ZDAB format: the bank tag is the four characters ZDAB, the word count
    takes the low 23 bits and the flag is bit 23; [SWAP_INT32] reverses the
    four bytes of each of [n] words; [SWAP_PMT_RECORD] does so for the 11
    words of the [PmtEventRecord] (the source counts 11 words for it). *)
Definition ZDAB_RECORD : Z := 0x5a444142.
Definition SUB_NOT_LAST : Z := 0x00800000.
Definition SUB_LENGTH_MASK : Z := 0x007fffff.

(** The four bytes of a 32-bit word in reverse order. *)
Definition swap_word (w : Z) : Z :=
  Z.lor (Z.lor (Z.shiftl (Z.land w 0xff) 24) (Z.shiftl (Z.land w 0xff00) 8))
        (Z.lor (Z.land (Z.shiftr w 8) 0xff00) (Z.land (Z.shiftr w 24) 0xff)).

(** [SWAP_INT32(buf + p, n)]; outside the buffer the behaviour is undefined
    ([None]). *)
Definition SWAP_INT32 (buf : list Z) (p n : nat) : option (list Z) :=
  if decide (p + n ≤ length buf)%nat then
    Some (take p buf ++ (swap_word <$> take n (drop p buf)) ++ drop (p + n) buf)
  else None.

(** Words of a [PmtEventRecord]. *)
Definition PMT_WORDS : nat := 11.

(** [SWAP_PMT_RECORD(pmtEventPtr)], the record starting at word 0. *)
Definition SWAP_PMT_RECORD (buf : list Z) : option (list Z) :=
  SWAP_INT32 buf 0 PMT_WORDS.

(** Fields of a [PmtEventRecord] in host order.  Word 1 is [RunNumber],
    the low half of word 3 is [NPmtHit], word 4 is [CalPckType] and words
    5 to 10 are the six words of [TriggerCardData]. *)
Definition word (buf : list Z) (i : nat) : Z := buf !!! i.
Definition RunNumber (buf : list Z) : Z := word buf 1.
Definition NPmtHit (buf : list Z) : Z := Z.land (word buf 3) 0xffff.
Definition CalPckType : nat := 4.
Definition mtcwords (buf : list Z) (i : nat) : Z := word buf (5 + i).
Definition Bc10_1 (buf : list Z) : Z := mtcwords buf 0.
Definition Bc10_2 (buf : list Z) : Z := Z.land (mtcwords buf 1) 0x1fffff.
Definition Bc50_1 (buf : list Z) : Z := Z.shiftr (mtcwords buf 1) 21.
Definition Bc50_2 (buf : list Z) : Z := mtcwords buf 2.
Definition BcGT (buf : list Z) : Z := Z.land (mtcwords buf 3) 0xffffff.

(** A buffer of 32-bit words. *)
Definition words (buf : list Z) : Prop := Forall (λ w, 0 ≤ w < 2 ^ 32) buf.

(** How the walk over the sub-records ends. *)
Inductive walk :=
| WalkDone (buf : list Z) (event_size : Z)   (* the loop condition failed *)
| WalkEscape (buf : list Z)                  (* jump > MAX_BUFFSIZE/4 *)
| WalkUndefined                              (* an access outside the buffer *)
| WalkDiverges.                              (* the loop does not end *)

(** The body of the loop after the jump test: restore the header, move,
    swap the next header, read its length and swap that many words. *)
Definition hop (buf : list Z) (sub_header : nat) (jump : Z)
  : option (list Z * nat * Z) :=
  buf1 ← SWAP_INT32 buf sub_header 1;
  let sub_header := (sub_header + Z.to_nat jump)%nat in
  buf2 ← SWAP_INT32 buf1 sub_header 1;
  let datawords := Z.land (word buf2 sub_header) SUB_LENGTH_MASK in
  buf3 ← SWAP_INT32 buf2 sub_header (Z.to_nat datawords);
  Some (buf3, sub_header, datawords).

(** [while( *sub_header & SUB_NOT_LAST )]. *)
Fixpoint sub_walk (fuel : nat) (buf : list Z) (sub_header : nat) (event_size : Z)
  : walk :=
  match fuel with
  | O => WalkDiverges
  | S fuel =>
      match buf !! sub_header with
      | None => WalkUndefined
      | Some h =>
          if decide (Z.land h SUB_NOT_LAST ≠ 0) then
            let jump := Z.land h SUB_LENGTH_MASK in
            if decide (jump > MAX_BUFFSIZE / 4) then WalkEscape buf
            else
              match hop buf sub_header jump with
              | None => WalkUndefined
              | Some (buf, sub_header, datawords) =>
                  sub_walk fuel buf sub_header (u32 (event_size + datawords))
              end
          else WalkDone buf event_size
      end
  end.

(** How a call of [ReadHits] ends. *)
Inductive outcome :=
| Returned (ret : Z) (zrec : nZDAB) (hit : hitinfo) (eff : list effect)
| Undefined
| Diverges.

Definition msg_badzdab (n : Z) : string :=
  "Read error: Bad ZDAB -- " +:+ dec n +:+ " pmt hit!"
    +:+ String (Ascii.ascii_of_nat 7) nl.
Definition msg_toomany : string := "Too many hits found!" +:+ nl.
Definition msg_jump : string :=
  "Error: wanted to jump past the end of the buffer" +:+ nl.

(** The fields read between the hit count and the walk. *)
Definition read_fields (buf : list Z) (hit : hitinfo) : hitinfo :=
  mkHitinfo
    (u64 (Z.shiftl (Bc50_2 buf) 11 + Bc50_1 buf))
    (u64 (Z.shiftl (Bc10_2 buf) 32 + Bc10_1 buf))
    (Z.lor (Z.shiftr (Z.land (mtcwords buf 3) 0xff000000) 24)
           (u32 (Z.shiftl (Z.land (mtcwords buf 4) 0x3ffff) 8)))
    (nhit hit) (reclen hit) (BcGT buf) (RunNumber buf).

Definition set_nhit (v : Z) (h : hitinfo) : hitinfo :=
  mkHitinfo (hit_time50 h) (hit_time10 h) (triggertype h) v (reclen h)
            (hit_gtid h) (run h).
Definition set_reclen (v : Z) (h : hitinfo) : hitinfo :=
  mkHitinfo (hit_time50 h) (hit_time10 h) (triggertype h) (nhit h) v
            (hit_gtid h) (run h).

(** The last two statements: restore the record to its external state. *)
Definition restore (buf : list Z) (hit : hitinfo) : option (list Z) :=
  buf1 ← SWAP_PMT_RECORD buf;
  SWAP_INT32 buf1 PMT_WORDS (Z.to_nat (3 * nhit hit)).

(** [static int ReadHits(nZDAB* zrec, hitinfo& hit)]: the value returned,
    the record buffer and [hit] as the call leaves them, and the effects. *)
Definition ReadHits (fuel : nat) (zrec : nZDAB) (hit : hitinfo) : outcome :=
  if decide (bank_name zrec ≠ ZDAB_RECORD) then Returned 1 zrec hit []
  else
    match SWAP_PMT_RECORD (data zrec) with
    | None => Undefined
    | Some buf =>
        let hit := set_nhit (NPmtHit buf) hit in
        if decide (nhit hit > MAX_NHIT) then
          Returned 1 (mkNZDAB (bank_name zrec) buf) hit
                   [Stderr (msg_badzdab (nhit hit)); Alarm 30 msg_toomany 0]
        else
          let hit := read_fields buf hit in
          let event_size := u32 (20 + 3 * nhit hit) in
          match sub_walk fuel buf CalPckType event_size with
          | WalkDiverges => Diverges
          | WalkUndefined => Undefined
          | WalkEscape buf =>
              Returned 0 (mkNZDAB (bank_name zrec) buf) hit [Stderr msg_jump]
          | WalkDone buf event_size =>
              let hit := set_reclen event_size hit in
              match restore buf hit with
              | None => Undefined
              | Some buf => Returned 0 (mkNZDAB (bank_name zrec) buf) hit []
              end
          end
    end.

(** ** main: one turn of the loop over the records *)

(** The locals of [main] that live across records, with the statics
    gathered in [clock]. *)
Record state := mkMain {
  configknown : bool;
  alltime : alltimes;
  hits : hitinfo;
  count : counts;
  stats : list Z;
  clk : clock
}.

Definition set_clk (c : clock) (s : state) : state :=
  mkMain (configknown s) (alltime s) (hits s) (count s) (stats s) c.
Definition set_hits (h : hitinfo) (s : state) : state :=
  mkMain (configknown s) (alltime s) h (count s) (stats s) (clk s).
Definition set_count (n : counts) (s : state) : state :=
  mkMain (configknown s) (alltime s) (hits s) n (stats s) (clk s).
Definition set_configknown (b : bool) (s : state) : state :=
  mkMain b (alltime s) (hits s) (count s) (stats s) (clk s).

Definition incr_eventn (n : counts) : counts :=
  mkCounts (u64 (eventn n + 1)) (recordn n).
Definition incr_recordn (n : counts) : counts :=
  mkCounts (eventn n) (u64 (recordn n + 1)).

Definition msg_rhdr : string :=
  "Stonehenge: RHDR Record in the middle of a run!" +:+ nl.
Definition msg_norhdr : string :=
  "Stonehenge: No RHDR Record found!  Using default cuts!" +:+ nl.

(** How a turn of the loop ends: the next record is fetched, or the turn
    ran into undefined behaviour, or it never ends. *)
Inductive status := Continue | Crashed | Hung.

(** A trace in which some record is handed to the output writer. *)
Definition written (eff : list effect) : Prop := ∃ r, OutZdab r ∈ eff.

Section Main.

(** Functions of other files: the run type [FillHeaderBuffer] finds in a
    record (zero when there is none) and the configuration [SetConfig]
    selects for a run type; and the command-line flag [yesredis]. *)
Variable FillHeaderBuffer : nZDAB → Z.
Variable SetConfig : Z → configuration.
Variable yesredis : bool.

(** The two tests on [runtype] at the top of the loop body. *)
Definition header (zrec : nZDAB) (s : state) : state * list effect :=
  let runtype := FillHeaderBuffer zrec in
  let '(s, eff) :=
    if decide (runtype ≠ 0 ∧ configknown s = false) then
      (set_configknown true (set_clk (set_config (SetConfig runtype) (clk s)) s),
       [WriteConfig (SetConfig runtype)])
    else (s, []) in
  if decide (runtype ≠ 0 ∧ configknown s = true) then
    (s, eff ++ [Alarm 30 msg_rhdr 0])
  else (s, eff).

(** The body of [if(! ReadHits(zrec, hits))].  [now] is the value of
    [time(NULL)] and [burst] the value [Burstfile] returns, should it be
    called. *)
Definition event (now : Z) (burst : bool) (zrec : nZDAB) (s : state)
  : state * list effect :=
  let count1 := incr_eventn (count s) in
  let '(at1, c1, e1) := compute_times (hits s) (alltime s) count1 (clk s) in
  let at2 := updatetime now at1 in
  let e2 :=
    if decide (walltime at2 ≠ oldwalltime at2) then
      (if yesredis then [Gtid (hits s); Writetoredis (stat c1) (oldwalltime at2)]
       else []) ++ [Flusherrors]
    else [] in
  let '(c2, e3) :=
    if configknown s then (c1, [])
    else (set_config (SetConfig 0) c1,
          [WriteConfig (SetConfig 0); Alarm 30 msg_norhdr 0]) in
  let '(at3, cut) :=
    setthreshold (u16 (nhit (hits s))) at2 (config c2) (NHITCUT c2) in
  let c3 := set_NHITCUT cut c2 in
  let word := u32 (triggertype (hits s)) in
  let reclen := u32 (reclen (hits s)) in
  let '(c4, e4) :=
    if decide (nhit (hits s) > nhitbcut (config c3)
               ∧ Z.land word (bitmask (config c3)) = 0) then
      (set_stat (or_burstbool burst (stat c3)) c3,
       [UpdateBuf (longtime at3) (burstwindow (config c3));
        AddEvBuf zrec (longtime at3) (reclen * 4);
        Burstfile (config c3) at3])
    else (c3, []) in
  let '(pass, stats1) :=
    l2filter (u16 (nhit (hits s))) word (passretrig c4) (retrig c4) (stats s)
             (NHITCUT c4) (config c4) in
  let '(c5, e5) :=
    if pass then
      (set_stat (incr_l2 (stat c4)) (set_passretrig true c4), [OutZdab zrec])
    else (c4, []) in
  (mkMain true at3 (hits s) count1 stats1 c5, e1 ++ e2 ++ e3 ++ e4 ++ e5).

(** The [else] branch: write out all non-event records. *)
Definition nonevent (zrec : nZDAB) (s : state) : state * list effect :=
  (set_clk (set_stat (incr_l2 (stat (clk s))) (clk s)) s, [OutZdab zrec]).

(** The statements that end the loop body. *)
Definition bump (s : state) : state :=
  set_count (incr_recordn (count s))
    (set_clk (set_stat (incr_l1 (stat (clk s))) (clk s)) s).

(** The loop body for the record [zrec]. *)
Definition main_step (fuel : nat) (now : Z) (burst : bool) (zrec : nZDAB)
    (s : state) : status * state * list effect :=
  let '(s1, e1) := header zrec s in
  match ReadHits fuel zrec (hits s1) with
  | Undefined => (Crashed, s1, e1)
  | Diverges => (Hung, s1, e1)
  | Returned ret zrec hit e2 =>
      let s2 := set_hits hit s1 in
      let '(s3, e3) :=
        if decide (ret = 0) then event now burst zrec s2 else nonevent zrec s2 in
      (Continue, bump s3, e1 ++ e2 ++ e3)
  end.

(** [while(nZDAB * const zrec = zfile->NextRecord())] over the records of
    a file, each with the wall-clock second and the [Burstfile] answer of
    its turn. *)
Fixpoint main_loop (fuel : nat) (recs : list (Z * bool * nZDAB)) (s : state)
  : status * state * list effect :=
  match recs with
  | [] => (Continue, s, [])
  | (now, burst, zrec) :: rest =>
      match main_step fuel now burst zrec s with
      | (Continue, s1, e1) =>
          let '(st, s2, e2) := main_loop fuel rest s1 in (st, s2, e1 ++ e2)
      | stopped => stopped
      end
  end.

End Main.

(** ** Example values *)

(** A configuration without and with a bit mask. *)
Definition cfg0 : configuration := mkConfiguration 30 20 40 1000 10 23 0 100 0 0 0.
Definition cfg_mask : configuration := mkConfiguration 30 20 40 1000 10 23 4 100 0 0 0.

(** A run in its fifth event, the last good time one tick before the 50MHz
    clock rolls over; a reading 51 ticks later on the 50MHz clock and ten
    ticks later on the 10MHz clock; an orphan. *)
Definition fifth : counts := mkCounts 5 5.
Definition last_good : alltimes := mkAlltimes 1000 (2 ^ 43 - 1) (2 ^ 43 - 1) 0 0 0 0.
Definition clock0 : clock :=
  mkClock cfg0 30 last_good false false false (mkL2stats 0 0 0 false).
Definition rollover_hit : hitinfo := mkHitinfo 50 1010 0 0 0 0 0.
Definition orphan_hit : hitinfo := mkHitinfo 0 1010 0 0 0 0 0.

(** A clock at tick 1000 that then reads 500 and 400. *)
Definition good1000 : alltimes := mkAlltimes 200 1000 1000 0 0 0 77.
Definition clock1000 : clock :=
  mkClock cfg0 20 good1000 false false false (mkL2stats 0 0 0 false).
Definition back500 : hitinfo := mkHitinfo 500 100 0 0 0 0 0.
Definition back400 : hitinfo := mkHitinfo 400 80 0 0 0 0 0.

(** A window armed at tick 500 and four records that do not re-arm it. *)
Definition tick500 : alltimes := mkAlltimes 0 500 500 0 0 0 0.
Definition quiet : list (Z * Z) := [(5, 501); (39, 1500); (0, 1501); (7, 1600)].

(** No run type in any record, one configuration, a fresh [main]. *)
Definition no_runtype (zrec : nZDAB) : Z := 0.
Definition rhdr_everywhere (zrec : nZDAB) : Z := 1.
Definition one_config (runtype : Z) : configuration := cfg0.
Definition time0 : alltimes := mkAlltimes 0 0 0 0 0 0 0.
Definition hit0 : hitinfo := mkHitinfo 0 0 0 0 0 0 0.
Definition main0 : state :=
  mkMain true time0 hit0 (mkCounts 0 0) [0; 0; 0; 0; 0; 0; 0; 0]
    (mkClock cfg0 30 time0 false false false (mkL2stats 0 0 0 false)).
Definition main_unconfigured : state :=
  mkMain false time0 hit0 (mkCounts 0 0) [0; 0; 0; 0; 0; 0; 0; 0]
    (mkClock cfg0 30 time0 false false false (mkL2stats 0 0 0 false)).

(** A hit record in external byte order whose [PmtEventRecord] has the hit
    count [n] and the first sub-record header [cal], followed by [tail];
    and the [PmtEventRecord] in host order. *)
Definition hit_record (n cal : Z) (tail : list Z) : nZDAB :=
  mkNZDAB ZDAB_RECORD
    ([0; 0; 0; swap_word n; swap_word cal; 0; 0; 0; 0; 0; 0] ++ tail).
Definition host_order (n cal : Z) : list Z := [0; 0; 0; n; cal; 0; 0; 0; 0; 0; 0].

(** One hit and no sub-record; too many hits; a first sub-record header
    that announces a further one 0x100001 words ahead. *)
Definition one_hit : nZDAB := hit_record 1 0 [1; 2; 3].
Definition too_many : nZDAB := hit_record 10241 0 [].
Definition escaping : nZDAB := hit_record 0 (SUB_NOT_LAST + 0x100001) [].

(** ** Initialisers *)

(** [counts CountInit()] *)
Definition CountInit : counts := mkCounts 0 0.

(** [static hitinfo InitHit()] *)
Definition InitHit : hitinfo := mkHitinfo 0 0 0 0 0 0 0.

(** [static alltimes InitTime()]: the four fields it assigns, in a struct
    whose other fields are not initialised ([uninit]); [GetEpoch] is a
    function of another file. *)
Definition InitTime (uninit : alltimes) (GetEpoch : Z) : alltimes :=
  set_epoch GetEpoch (set_exptime 0 (set_oldwalltime 0 (set_walltime 0 uninit))).

(** ** Bookkeeping over the loop *)

(** The time state [main] carries agrees with the last good time on the
    50MHz tick, the epoch and the long time. *)
Definition synced (a : alltimes) (c : clock) : Prop :=
  time50 a = time50 (standard c) ∧ epoch a = epoch (standard c)
  ∧ longtime a = longtime (standard c).

(** The events the eight buckets hold. *)
Definition bucket_total (stats : list Z) : Z := foldr Z.add 0 stats.

(** The records handed to the output writer in a trace. *)
Definition is_outzdab (e : effect) : bool :=
  match e with OutZdab _ => true | _ => false end.
Definition outzdabs (eff : list effect) : nat :=
  length (List.filter is_outzdab eff).

(** The calls into the burst buffer that feed it an event. *)
Definition feeds_burst (e : effect) : bool :=
  match e with
  | UpdateBuf _ _ | AddEvBuf _ _ _ | Burstfile _ _ => true
  | _ => false
  end.
Definition burst_calls (eff : list effect) : nat :=
  length (List.filter feeds_burst eff).

(** The test that guards the burst detection in the loop. *)
Definition burst_guard (h : hitinfo) (cfg : configuration) : Prop :=
  nhit h > nhitbcut cfg ∧ Z.land (u32 (triggertype h)) (bitmask cfg) = 0.

(** Example values: a record of another bank, a hit record whose first
    sub-record header has the more-follow flag and a zero length, a file
    of three records, and a [main] in which a burst has been seen. *)
Definition other_bank : nZDAB := mkNZDAB 0x52484452 [7; 8; 9].
Definition stuck : list Z := host_order 0 SUB_NOT_LAST.
Definition three_records : list (Z * bool * nZDAB) :=
  [(1, false, other_bank); (1, false, one_hit); (2, false, too_many)].
Definition main_bursting : state :=
  mkMain true time0 hit0 (mkCounts 0 0) [0; 0; 0; 0; 0; 0; 0; 0]
    (mkClock cfg0 30 time0 false false false (mkL2stats 0 0 0 true)).

(** ** The threshold window in the loop *)

Section Window.

Variable FillHeaderBuffer : nZDAB → Z.
Variable SetConfig : Z → configuration.
Variable yesredis : bool.

(** The state [event] is run on in the turn for [zrec]: the state after
    the tests on the run type, with the hit [ReadHits] has decoded.  There
    is none when [ReadHits] does not return 0. *)
Definition decoded (fuel : nat) (zrec : nZDAB) (s : state) : option state :=
  let s1 := (header FillHeaderBuffer SetConfig zrec s).1 in
  match ReadHits fuel zrec (hits s1) with
  | Returned ret _ hit _ =>
      if decide (ret = 0) then Some (set_hits hit s1) else None
  | _ => None
  end.

(** [compute_times] takes the reading of the hit over: it is the first
    event, an orphan, or it passes the well-orderedness test, so that
    neither the last good time is put back nor everything reset. *)
Definition taken (s : state) : Prop :=
  eventn (incr_eventn (count s)) = 1 ∨ hit_time50 (hits s) = 0
  ∨ ¬ rejected (hits s) (alltime s) (clk s).

(** A turn of the loop that leaves the window alone: the record is not
    processed as an event, or its reading is taken over, its hit count
    does not arm the window and the long time [compute_times] returns is
    not before the one it was given. *)
Definition calm (fuel : nat) (zrec : nZDAB) (s : state) : Prop :=
  match decoded fuel zrec s with
  | Some s0 =>
      taken s0 ∧ u16 (nhit (hits s0)) ≤ lothresh (config (clk s0))
      ∧ longtime (alltime s0)
        ≤ longtime (compute_times (hits s0) (alltime s0)
                      (incr_eventn (count s0)) (clk s0)).1.1
  | None => True
  end.

(** Every turn of the loop over [recs] from [s] is calm. *)
Fixpoint quiet_run (fuel : nat) (recs : list (Z * bool * nZDAB)) (s : state)
  : Prop :=
  match recs with
  | [] => True
  | (now, burst, zrec) :: rest =>
      calm fuel zrec s
      ∧ match main_step FillHeaderBuffer SetConfig yesredis fuel now burst zrec s
        with
        | (Continue, s1, _) => quiet_run fuel rest s1
        | _ => True
        end
  end.

End Window.

(** A hit record without sub-records, in external byte order, with [n]
    hits and the 50MHz reading [t], its low 11 bits in the second clock
    word and the rest in the third. *)
Definition timed_record (n t : Z) : nZDAB :=
  mkNZDAB ZDAB_RECORD
    ([0; 0; 0; swap_word n; 0; 0; swap_word (Z.shiftl (Z.land t 0x7ff) 21);
      swap_word (Z.shiftr t 11); 0; 0; 0]
       ++ replicate (Z.to_nat (3 * n)) 0).

(** Example values.  A first record at tick 1000 and a record of 41 hits
    at tick 1100, which arms a window of 1000 ticks.  Then: a record of 25
    hits at tick 1200; or a reading of 500, rejected once, and that
    record; or readings of 1900, 1500 and 1600, the last two rejected, the
    last with 25 hits.  And a run for after the arming: records of 25 hits
    at ticks 1200 and 2101, a record of another bank between them. *)
Definition armed_at_1100 : list (Z * bool * nZDAB) :=
  [(1, false, timed_record 5 1000); (1, false, timed_record 41 1100)].
Definition no_strike : list (Z * bool * nZDAB) :=
  armed_at_1100 ++ [(1, false, timed_record 25 1200)].
Definition one_strike : list (Z * bool * nZDAB) :=
  armed_at_1100
    ++ [(1, false, timed_record 5 500); (1, false, timed_record 25 1200)].
Definition two_strikes_run : list (Z * bool * nZDAB) :=
  armed_at_1100
    ++ [(1, false, timed_record 5 1900); (1, false, timed_record 5 1500);
        (1, false, timed_record 25 1600)].
Definition in_and_out : list (Z * bool * nZDAB) :=
  [(1, false, timed_record 25 1200); (2, false, other_bank);
   (2, false, timed_record 25 2101)].

End Stonehenge.

(* ===================================================================== *)
(** * The alarm limiter *)
(* ===================================================================== *)

Module AlarmLimiter.
Import Curl.

Lemma index_lt a : (index a < 5)%nat.
Proof. destruct a; simpl; lia. Qed.

Lemma budget_pos level : 1 ≤ budget level.
Proof. unfold budget. destruct (type level); vm_compute; discriminate. Qed.

Lemma flush_same w s : w = oldwalltime s → flush w s = (s, []).
Proof. intros ->. unfold flush. case_decide; [congruence | done]. Qed.

Lemma flush_loop_wf s :
  length (alarmn s) = 5%nat → length (overflow s) = 5%nat →
  flush_loop s = (foldr Z.add 0 (overflow s), zeros, zeros).
Proof.
  destruct s as [an ov t]; simpl.
  destruct an as [|a0 [|a1 [|a2 [|a3 [|a4 [|]]]]]]; try discriminate.
  destruct ov as [|o0 [|o1 [|o2 [|o3 [|o4 [|]]]]]]; try discriminate.
  intros _ _. unfold flush_loop; simpl. unfold zeros. do 2 f_equal. lia.
Qed.

(** A request in the second of the last one. *)
Lemma alarm_same w level msg s :
  w = oldwalltime s → length (alarmn s) = 5%nat →
  alarm w level msg s =
    let t := index (type level) in
    let n := alarmn s !!! t + 1 in
    if decide (n > budget level) then
      ({| alarmn := <[t := n]> (alarmn s);
          overflow := <[t := overflow s !!! t + 1]> (overflow s);
          oldwalltime := w |}, [])
    else
      ({| alarmn := <[t := n]> (alarmn s); overflow := overflow s;
          oldwalltime := w |}, [curlmsg level msg]).
Proof.
  intros Hw Hlen. unfold alarm. rewrite flush_same by done. simpl.
  rewrite list_lookup_total_insert_eq by (rewrite Hlen; apply index_lt).
  unfold budget. rewrite <- Hw. by case_decide.
Qed.

(** Any number of requests of one class within the running second: the
    first [budget - n] are forwarded, the others counted as suppressed. *)
Lemma burst_same w level msgs : ∀ s,
  w = oldwalltime s → length (alarmn s) = 5%nat → length (overflow s) = 5%nat →
  let t := index (type level) in
  let n := alarmn s !!! t in
  let k := Z.to_nat (budget level - n) in
  alarms (burst w level msgs) s =
    ({| alarmn := <[t := n + Z.of_nat (length msgs)]> (alarmn s);
        overflow := <[t := overflow s !!! t + Z.of_nat (length (drop k msgs))]>
                      (overflow s);
        oldwalltime := w |},
     curlmsg level <$> take k msgs).
Proof.
  induction msgs as [|m msgs IH]; intros s Hw Han Hov; simpl.
  - rewrite drop_nil, take_nil. simpl. rewrite !Z.add_0_r.
    rewrite !list_insert_id
      by (apply list_lookup_lookup_total_lt; rewrite ?Han, ?Hov; apply index_lt).
    destruct s; simpl in *; by subst.
  - rewrite alarm_same by done. simpl.
    pose proof (index_lt (type level)) as Hi.
    case_decide as Hn.
    + rewrite IH by (simpl; rewrite ?length_insert; done). simpl.
      rewrite !list_lookup_total_insert_eq by (rewrite ?Han, ?Hov; done).
      rewrite !list_insert_insert_eq.
      replace (Z.to_nat (budget level - (alarmn s !!! index (type level) + 1)))
        with 0%nat by lia.
      replace (Z.to_nat (budget level - alarmn s !!! index (type level)))
        with 0%nat by lia.
      simpl. rewrite drop_0. simpl length.
      rewrite Nat2Z.inj_succ, <- !Z.add_1_l, !Z.add_assoc. done.
    + rewrite IH by (simpl; rewrite ?length_insert; done). simpl.
      rewrite !list_lookup_total_insert_eq by (rewrite ?Han, ?Hov; done).
      rewrite !list_insert_insert_eq.
      replace (Z.to_nat (budget level - alarmn s !!! index (type level)))
        with (S (Z.to_nat (budget level - (alarmn s !!! index (type level) + 1))))
        by lia.
      simpl. rewrite Nat2Z.inj_succ, <- !Z.add_1_l, !Z.add_assoc. done.
Qed.

(** The sum of counts is nonzero exactly when one of them is. *)
Lemma nonzero_sum (l : list Z) :
  Forall (λ n, 0 ≤ n) l →
  foldr Z.add 0 l ≠ 0 ↔ filter (λ n, n ≠ 0) l ≠ [].
Proof.
  induction 1 as [|x l Hx Hl IH]; simpl; [done|].
  assert (0 ≤ foldr Z.add 0 l) by (clear IH; induction Hl; simpl; lia).
  rewrite filter_cons. case_decide; [split; [done | lia]|].
  rewrite <- IH. split; lia.
Qed.

(** The request that opens a second. *)
Lemma alarm_new_second w level msg s :
  length (alarmn s) = 5%nat → length (overflow s) = 5%nat → w ≠ oldwalltime s →
  let total := foldr Z.add 0 (overflow s) in
  alarm w level msg s =
    ({| alarmn := <[index (type level) := 1]> zeros; overflow := zeros;
        oldwalltime := w |},
     (if decide (total ≠ 0) then [overflowmsg total] else [])
       ++ [curlmsg level msg]).
Proof.
  intros Han Hov Hw. unfold alarm, flush.
  rewrite decide_True by done. rewrite flush_loop_wf by done. simpl.
  destruct (type level); simpl; done.
Qed.

(** The flush, if any, can be performed ahead of a run of requests of one
    second. *)
Lemma burst_split w level m msgs s :
  alarms (burst w level (m :: msgs)) s =
    let '(s1, p) := flush w s in
    let '(s2, q) := alarms (burst w level (m :: msgs)) s1 in
    (s2, p ++ q).
Proof.
  simpl. unfold alarm at 1.
  destruct (flush w s) as [s1 p] eqn:Hf.
  assert (flush w s1 = (s1, [])) as Hf1.
  { apply flush_same. unfold flush in Hf. case_decide.
    - destruct (flush_loop s) as [[? ?] ?]. by inversion Hf.
    - inversion Hf; subst. tauto. }
  unfold alarm. rewrite Hf1. simpl.
  destruct (decide _); destruct (alarms _ _) as [s2 q]; simpl.
  - done.
  - by rewrite <- app_assoc.
Qed.

(** C7 (amended).  In a second that opens with the request, the limiter
    first flushes: if any suppressed count is nonzero it posts exactly one
    report, carrying the sum of the suppressed counts of all five classes,
    and zeroes every counter before the request itself is counted.  Of
    budget+1 requests of one class in that second, exactly the first
    budget are forwarded and the class's suppressed counter ends at one. *)
Theorem alarm_limiter (s : state) (w level : Z) (msgs : list string) :
  wf s → w ≠ oldwalltime s → length msgs = S (Z.to_nat (budget level)) →
  let t := index (type level) in
  let total := foldr Z.add 0 (overflow s) in
  let report := if decide (total ≠ 0) then [overflowmsg total] else [] in
  (∀ msg, alarm w level msg s =
     ({| alarmn := <[t := 1]> zeros; overflow := zeros; oldwalltime := w |},
      report ++ [curlmsg level msg]))
  ∧ (total ≠ 0 ↔ suppressed_classes s ≠ [])
  ∧ alarms (burst w level msgs) s =
      ({| alarmn := <[t := budget level + 1]> zeros;
          overflow := <[t := 1]> zeros; oldwalltime := w |},
       report ++ (curlmsg level <$> take (Z.to_nat (budget level)) msgs)).
Proof.
  intros (Han & Hov & Hpos) Hw Hlen t total report.
  split; [|split].
  - intros msg. by apply alarm_new_second.
  - by apply nonzero_sum.
  - destruct msgs as [|m msgs]; [done|].
    rewrite burst_split. unfold flush. rewrite decide_True by done.
    rewrite flush_loop_wf by done. fold total. fold report.
    pose proof (budget_pos level).
    rewrite burst_same by done. simpl alarmn. simpl overflow. subst t.
    assert (zeros !!! index (type level) = 0) as ->
      by (destruct (type level); done).
    rewrite Z.sub_0_r, Z.add_0_l, length_drop, Hlen.
    do 3 f_equal; f_equal; lia.
Qed.

(** Two error-class requests, budget one, open a second after three
    messages were suppressed in the last one. *)
Lemma alarm_limiter_witness :
  wf stormy ∧ 1 ≠ oldwalltime stormy
  ∧ length ["a"; "b"] = S (Z.to_nat (budget 40))
  ∧ alarms (burst 1 40 ["a"; "b"]) stormy =
      ({| alarmn := [0; 0; 0; 0; 2]; overflow := [0; 0; 0; 0; 1];
          oldwalltime := 1 |},
       [overflowmsg 3; curlmsg 40 "a"]).
Proof.
  assert (wf stormy) as Hwf by (repeat split; repeat constructor; lia).
  assert (1 ≠ oldwalltime stormy) as Hw by (simpl; lia).
  split; [exact Hwf|]. split; [exact Hw|]. split; [reflexivity|].
  exact (proj2 (proj2 (alarm_limiter stormy 1 40 ["a"; "b"] Hwf Hw eq_refl))).
Defined.

(** C7 (as stated) fails: with two classes holding suppressed messages the
    flush posts one report, for their sum, and not one report per class. *)
Lemma flush_not_per_class :
  wf stormy ∧ 1 ≠ oldwalltime stormy
  ∧ length (suppressed_classes stormy) = 2%nat
  ∧ (alarm 1 30 "x" stormy).2 = [overflowmsg 3; curlmsg 30 "x"]
  ∧ (alarm 1 30 "x" stormy).2 ≠ per_class_reports stormy ++ [curlmsg 30 "x"].
Proof.
  split; [repeat split; repeat constructor; lia|].
  split; [simpl; lia|]. split; [reflexivity|]. split; [reflexivity|].
  vm_compute. discriminate.
Qed.

End AlarmLimiter.

(* ===================================================================== *)
(** * The clock reconciler *)
(* ===================================================================== *)

Module ClockReconciler.
Import Stonehenge.

Lemma u64_neg z : - 2 ^ 64 ≤ z < 0 → u64 z = z + 2 ^ 64.
Proof.
  intros. unfold u64.
  rewrite <- (Z.mod_small (z + 2 ^ 64) (2 ^ 64)) by lia.
  rewrite <- (Z.mod_add z 1 (2 ^ 64)) by lia. f_equal; lia.
Qed.

(** A reading below the last good time never passes the second test of
    [IsConsistent]: the difference of the two 43-bit values wraps. *)
Lemma jump_check_backward newat standard eff :
  0 ≤ time50 newat → time50 newat < time50 standard → time50 standard < 2 ^ 43 →
  (jump_check newat standard eff).1.1 = false.
Proof.
  intros H0 Hlt Hstd. unfold jump_check.
  rewrite u64_neg by lia. unfold maxjump.
  rewrite decide_True by lia. done.
Qed.

Lemma IsConsistent_backward newat standard dd :
  0 ≤ time50 newat → time50 newat < time50 standard → time50 standard < 2 ^ 43 →
  (IsConsistent newat standard dd).1.1 = false.
Proof.
  intros H0 Hlt Hstd. unfold IsConsistent.
  rewrite decide_True by done.
  case_decide; [|done].
  by apply jump_check_backward.
Qed.

(** [compute_times] for a record after the first that is not an orphan. *)
Lemma compute_times_later hits oldat count c :
  eventn count ≠ 1 → hit_time50 hits ≠ 0 →
  compute_times hits oldat count c =
    let newat := reading hits oldat in
    let dd := drift oldat newat in
    let eff := if decide (dd > maxdrift)
               then [Alarm 30 (msg_drift dd) 0; Stderr (msg_drift dd)] else [] in
    let c1 := if decide (is_retrigger (config c) oldat newat)
              then set_retrig true c
              else set_passretrig false (set_retrig false c) in
    let '(newat, c2, eff2) := well_ordered newat dd c1 in
    (newat, c2, eff ++ eff2).
Proof.
  intros Hn Ht. unfold compute_times, later_event.
  rewrite decide_False by done.
  rewrite decide_False; [done|]. by destruct oldat.
Qed.

Lemma resets_app e1 e2 : resets (e1 ++ e2) = (resets e1 + resets e2)%nat.
Proof. unfold resets. by rewrite List.filter_app, length_app. Qed.

Lemma resets_IsConsistent newat standard dd :
  resets (IsConsistent newat standard dd).2 = 0%nat.
Proof.
  unfold IsConsistent, jump_check.
  repeat case_decide; done.
Qed.

Lemma resets_drift dd :
  resets (if decide (dd > maxdrift)
          then [Alarm 30 (msg_drift dd) 0; Stderr (msg_drift dd)] else []) = 0%nat.
Proof. by case_decide. Qed.

(** First strike: a rejected reading with no fault pending. *)
Lemma first_strike hits oldat count c :
  eventn count ≠ 1 → hit_time50 hits ≠ 0 → rejected hits oldat c →
  problem c = false →
  let '(newat, c1, eff) := compute_times hits oldat count c in
  newat = standard c ∧ standard c1 = standard c ∧ problem c1 = true
  ∧ NHITCUT c1 = NHITCUT c ∧ resets eff = 0%nat.
Proof.
  intros Hn Ht Hrej Hp. rewrite compute_times_later by done. cbv zeta.
  unfold rejected in Hrej. unfold well_ordered.
  set (c1 := if decide _ then set_retrig true c else _).
  assert (standard c1 = standard c ∧ problem c1 = problem c
          ∧ NHITCUT c1 = NHITCUT c) as (Hs & Hp1 & Hc)
    by (subst c1; case_decide; done).
  rewrite Hs.
  pose proof (resets_IsConsistent (reading hits oldat) (standard c)
                (drift oldat (reading hits oldat))) as Hr.
  destruct (IsConsistent _ _ _) as [[ok newat] eff]; simpl in *. subst ok.
  rewrite Hp1, Hp. simpl.
  rewrite resets_app, resets_drift, Hr. done.
Qed.

(** Second strike: a rejected reading with a fault pending. *)
Lemma second_strike hits oldat count c :
  eventn count ≠ 1 → hit_time50 hits ≠ 0 → rejected hits oldat c →
  problem c = true →
  let '(newat, c1, eff) := compute_times hits oldat count c in
  epoch newat = 0 ∧ exptime newat = 0 ∧ longtime newat = hit_time50 hits
  ∧ time50 newat = hit_time50 hits ∧ time10 newat = hit_time10 hits
  ∧ standard c1 = newat ∧ problem c1 = false
  ∧ NHITCUT c1 = nhithi (config c) ∧ resets eff = 1%nat.
Proof.
  intros Hn Ht Hrej Hp. rewrite compute_times_later by done. cbv zeta.
  unfold rejected in Hrej. unfold well_ordered.
  set (c1 := if decide _ then set_retrig true c else _).
  assert (standard c1 = standard c ∧ problem c1 = problem c
          ∧ config c1 = config c) as (Hs & Hp1 & Hc)
    by (subst c1; case_decide; done).
  rewrite Hs.
  pose proof (resets_IsConsistent (reading hits oldat) (standard c)
                (drift oldat (reading hits oldat))) as Hr.
  assert (time50 (IsConsistent (reading hits oldat) (standard c)
                    (drift oldat (reading hits oldat))).1.2 = hit_time50 hits
          ∧ time10 (IsConsistent (reading hits oldat) (standard c)
                    (drift oldat (reading hits oldat))).1.2 = hit_time10 hits)
    as [H50 H10].
  { unfold IsConsistent, jump_check. repeat case_decide; done. }
  destruct (IsConsistent _ _ _) as [[ok newat] eff]; simpl in *. subst ok.
  rewrite Hp1, Hp, Hc. simpl.
  rewrite !resets_app, resets_drift, Hr. done.
Qed.

(** A reset is only ever performed with a fault pending. *)
Lemma reset_needs_fault hits oldat count c :
  problem c = false → resets (compute_times hits oldat count c).2 = 0%nat.
Proof.
  intros Hp. unfold compute_times, first_event, later_event, well_ordered.
  case_decide; [done|].
  set (c1 := if decide (is_retrigger _ _ _) then set_retrig true c else _).
  assert (problem c1 = false) as Hp1 by (subst c1; by case_decide).
  case_decide; simpl; [apply resets_drift|].
  pose proof (resets_IsConsistent (reading hits oldat) (standard c1)
                (drift oldat (reading hits oldat))) as Hr.
  destruct (IsConsistent _ _ _) as [[ok newat] eff]; simpl in *.
  rewrite Hp1. destruct ok; simpl; by rewrite resets_app, resets_drift, Hr.
Qed.

(** An accepted reading leaves the expiry tick of the threshold window as
    it was. *)
Lemma accepted_keeps_exptime hits oldat count c :
  eventn count ≠ 1 → hit_time50 hits ≠ 0 → ¬ rejected hits oldat c →
  exptime (compute_times hits oldat count c).1.1 = exptime oldat.
Proof.
  intros Hn Ht Hacc. rewrite compute_times_later by done. cbv zeta.
  unfold rejected in Hacc. unfold well_ordered.
  set (c1 := if decide _ then set_retrig true c else _).
  assert (standard c1 = standard c) as Hs by (subst c1; by case_decide).
  rewrite Hs.
  assert (exptime (IsConsistent (reading hits oldat) (standard c)
                    (drift oldat (reading hits oldat))).1.2 = exptime oldat)
    as Hx.
  { unfold IsConsistent, jump_check. repeat case_decide; by destruct oldat. }
  destruct (IsConsistent _ _ _) as [[ok newat] eff]; simpl in *.
  destruct ok; [by destruct newat | done].
Qed.

(** C1.  Under the premises of the rollover rule (a reading below the last
    good time, which is within [maxjump] of 2^43, the sum of the two below
    2^43 + maxjump, drift below [maxdrift]) the record is not accepted:
    [IsConsistent] increments [epoch] in its copy and then fails its second
    test, whose unsigned difference wraps.  With no fault pending the
    caller returns the last good time (same [epoch], same [longtime]); with
    a fault pending it resets ([epoch] zero, [longtime] the small new
    reading). *)
Theorem rollover_not_accepted hits oldat count c :
  eventn count ≠ 1 →
  0 < hit_time50 hits → hit_time50 hits < time50 (standard c) →
  time50 (standard c) < 2 ^ 43 →
  rollover_ok (reading hits oldat) (standard c) (drift oldat (reading hits oldat)) →
  let '(newat, c1, eff) := compute_times hits oldat count c in
  rejected hits oldat c
  ∧ (problem c = false →
     newat = standard c ∧ standard c1 = standard c ∧ problem c1 = true)
  ∧ (problem c = true →
     epoch newat = 0 ∧ longtime newat = hit_time50 hits
     ∧ longtime newat < time50 (standard c)).
Proof.
  intros Hn H0 Hlt Hstd _.
  assert (rejected hits oldat c) as Hrej.
  { unfold rejected. apply IsConsistent_backward; [|done..].
    destruct oldat; simpl; lia. }
  assert (hit_time50 hits ≠ 0) as Hnz by lia.
  pose proof (first_strike hits oldat count c Hn Hnz Hrej) as H1.
  pose proof (second_strike hits oldat count c Hn Hnz Hrej) as H2.
  destruct (compute_times hits oldat count c) as [[newat c1] eff].
  split; [done|]. split.
  - intros Hp. destruct (H1 Hp) as (? & ? & ? & _). done.
  - intros Hp. destruct (H2 Hp) as (? & _ & Hl & _). rewrite Hl. done.
Qed.

(** The failing input of C1: last good time 2^43 - 1, new reading 50 on the
    50MHz clock and ten ticks later on the 10MHz clock (drift 1). *)
Lemma rollover_not_accepted_witness :
  drift last_good (reading rollover_hit last_good) = 1
  ∧ rollover_ok (reading rollover_hit last_good) last_good
                (drift last_good (reading rollover_hit last_good))
  ∧ (let '(newat, c1, eff) := compute_times rollover_hit last_good fifth clock0 in
     rejected rollover_hit last_good clock0
     ∧ (problem clock0 = false →
        newat = standard clock0 ∧ standard c1 = standard clock0
        ∧ problem c1 = true)
     ∧ (problem clock0 = true →
        epoch newat = 0 ∧ longtime newat = hit_time50 rollover_hit
        ∧ longtime newat < time50 (standard clock0))).
Proof.
  assert (rollover_ok (reading rollover_hit last_good) last_good
            (drift last_good (reading rollover_hit last_good))) as Hok
    by (vm_compute; repeat split; by intros ?).
  split; [reflexivity|]. split; [exact Hok|].
  apply (rollover_not_accepted rollover_hit last_good fifth clock0);
    solve [exact Hok | reflexivity | simpl; lia].
Defined.

(** At that input [compute_times] announces the new epoch, then the large
    gap, and returns the last good time with the fault flag set. *)
Lemma rollover_failing_input :
  compute_times rollover_hit last_good fifth clock0
  = (last_good, set_problem true clock0,
     [Stderr ("New Epoch" +:+ nl); Alarm 20 "Stonehenge: new epoch." 0;
      Alarm 30 msg_gap 0; Stderr msg_gap]).
Proof. reflexivity. Qed.

(** C2.  Two consecutive rejected readings, no fault pending before the
    first.  The first sets the fault flag and yields the unmodified last
    good time, with no reset; the second resets exactly once: [epoch] and
    [exptime] zero, [longtime] the new [time50], the new reading adopted as
    the last good time, fault flag cleared. *)
Theorem two_strikes hits1 hits2 oldat count1 count2 c :
  eventn count1 ≠ 1 → eventn count2 ≠ 1 →
  hit_time50 hits1 ≠ 0 → hit_time50 hits2 ≠ 0 →
  problem c = false →
  rejected hits1 oldat c → rejected hits2 (standard c) c →
  let '(at1, c1, e1) := compute_times hits1 oldat count1 c in
  let '(at2, c2, e2) := compute_times hits2 at1 count2 c1 in
  (at1 = standard c ∧ standard c1 = standard c ∧ problem c1 = true
   ∧ resets e1 = 0%nat)
  ∧ (epoch at2 = 0 ∧ exptime at2 = 0 ∧ longtime at2 = hit_time50 hits2
     ∧ time50 at2 = hit_time50 hits2 ∧ time10 at2 = hit_time10 hits2
     ∧ standard c2 = at2 ∧ problem c2 = false ∧ resets e2 = 1%nat).
Proof.
  intros Hn1 Hn2 Ht1 Ht2 Hp Hr1 Hr2.
  pose proof (first_strike hits1 oldat count1 c Hn1 Ht1 Hr1 Hp) as H1.
  destruct (compute_times hits1 oldat count1 c) as [[at1 c1] e1].
  destruct H1 as (-> & Hs & Hp1 & _ & He1).
  assert (rejected hits2 (standard c) c1) as Hr2'
    by (unfold rejected in *; by rewrite Hs).
  pose proof (second_strike hits2 (standard c) count2 c1 Hn2 Ht2 Hr2' Hp1) as H2.
  destruct (compute_times hits2 (standard c) count2 c1) as [[at2 c2] e2].
  destruct H2 as (? & ? & ? & ? & ? & ? & ? & _ & ?).
  done.
Qed.

(** The clock runs backward twice, from 1000 to 500 and then to 400. *)
Lemma two_strikes_witness :
  rejected back500 good1000 clock1000 ∧ rejected back400 good1000 clock1000
  ∧ (let '(at1, c1, e1) := compute_times back500 good1000 fifth clock1000 in
     let '(at2, c2, e2) := compute_times back400 at1 fifth c1 in
     (at1 = standard clock1000 ∧ standard c1 = standard clock1000
      ∧ problem c1 = true ∧ resets e1 = 0%nat)
     ∧ (epoch at2 = 0 ∧ exptime at2 = 0 ∧ longtime at2 = hit_time50 back400
        ∧ time50 at2 = hit_time50 back400 ∧ time10 at2 = hit_time10 back400
        ∧ standard c2 = at2 ∧ problem c2 = false ∧ resets e2 = 1%nat)).
Proof.
  split; [reflexivity|]. split; [reflexivity|].
  apply (two_strikes back500 back400 good1000 fifth fifth clock1000);
    solve [reflexivity | simpl; lia].
Defined.

(** C9 (amended).  For a record after the first whose [time50] is zero,
    [compute_times] counts an orphan and returns the previous time state
    with [time50], [longtime], [epoch], [exptime] and the wall-clock fields
    unchanged; [time10] takes the value of the record.  The last good time
    and the fault flag are not touched and nothing is reset. *)
Theorem orphan_keeps_clock hits oldat count c :
  eventn count ≠ 1 → hit_time50 hits = 0 →
  let '(newat, c1, eff) := compute_times hits oldat count c in
  newat = set_time10 (hit_time10 hits) oldat
  ∧ time50 newat = time50 oldat ∧ longtime newat = longtime oldat
  ∧ epoch newat = epoch oldat ∧ exptime newat = exptime oldat
  ∧ orphan (stat c1) = orphan (stat c) + 1
  ∧ standard c1 = standard c ∧ problem c1 = problem c
  ∧ resets eff = 0%nat.
Proof.
  intros Hn Ht. unfold compute_times, later_event.
  rewrite decide_False by done.
  rewrite decide_True by (by destruct oldat).
  set (c1 := if decide _ then set_retrig true c else _).
  assert (standard c1 = standard c ∧ problem c1 = problem c
          ∧ stat c1 = stat c) as (Hs & Hp1 & Hc)
    by (subst c1; case_decide; done).
  simpl. rewrite Hs, Hp1, Hc, resets_drift. by destruct oldat.
Qed.

Lemma orphan_keeps_clock_witness :
  eventn fifth ≠ 1 ∧ hit_time50 orphan_hit = 0
  ∧ (compute_times orphan_hit last_good fifth clock0).1.1
    = set_time10 1010 last_good.
Proof.
  split; [simpl; lia|]. split; [reflexivity|].
  pose proof (orphan_keeps_clock orphan_hit last_good fifth clock0) as H.
  destruct (compute_times orphan_hit last_good fifth clock0) as [[newat c1] eff].
  destruct H as (-> & _); [simpl; lia | reflexivity | reflexivity].
Defined.

(** C9 (as stated) fails: the state returned for an orphan is not the
    previous state in every field; [time10] is the orphan's. *)
Lemma orphan_changes_time10 :
  eventn fifth ≠ 1 ∧ hit_time50 orphan_hit = 0
  ∧ time10 last_good = 1000
  ∧ time10 (compute_times orphan_hit last_good fifth clock0).1.1 = 1010
  ∧ (compute_times orphan_hit last_good fifth clock0).1.1 ≠ last_good.
Proof.
  split; [simpl; lia|]. do 3 (split; [reflexivity|]).
  vm_compute. discriminate.
Qed.

End ClockReconciler.

(* ===================================================================== *)
(** * The filter *)
(* ===================================================================== *)

Module Filter.
Import Stonehenge.

(** The loop over the eight buckets touches the bucket of the key only. *)
Lemma bucket_loop key (stats : list Z) :
  length stats = 8%nat → 0 ≤ key < 8 →
  foldl (bucket_step key) stats (seq 0 8)
  = <[Z.to_nat key := stats !!! Z.to_nat key + 1]> stats.
Proof.
  intros Hlen Hkey.
  destruct stats as [|s0 [|s1 [|s2 [|s3 [|s4 [|s5 [|s6 [|s7 [|]]]]]]]]];
    try discriminate.
  assert (key = 0 ∨ key = 1 ∨ key = 2 ∨ key = 3 ∨ key = 4 ∨ key = 5
          ∨ key = 6 ∨ key = 7) as Hk by lia.
  destruct Hk as [->|[->|[->|[->|[->|[->|[->| ->]]]]]]]; reflexivity.
Qed.

(** The key is one of the eight bucket indices. *)
Lemma l2key_range nhit word passretrig retrig cut cfg :
  0 ≤ (l2cuts nhit word passretrig retrig cut cfg).2 < 8.
Proof. unfold l2cuts. repeat case_decide; simpl; lia. Qed.

(** The array [l2filter] leaves: the bucket of the key, plus one. *)
Lemma l2filter_stats nhit word passretrig retrig (stats : list Z) cut cfg :
  length stats = 8%nat →
  let key := Z.to_nat (l2cuts nhit word passretrig retrig cut cfg).2 in
  (l2filter nhit word passretrig retrig stats cut cfg).2
  = <[key := stats !!! key + 1]> stats.
Proof.
  intros Hlen. unfold l2filter.
  pose proof (l2key_range nhit word passretrig retrig cut cfg) as Hk.
  destruct (l2cuts nhit word passretrig retrig cut cfg) as [pass key].
  simpl in *. by apply bucket_loop.
Qed.

(** C6.  [l2filter] accepts exactly when the hit count exceeds the active
    cut, or the trigger word meets the bit mask, or the event is an
    eligible retrigger above the retrigger cut; and it adds one to exactly
    one of the eight buckets, the one whose index has these three
    conditions as bits 0, 1 and 2. *)
Theorem l2filter_decision nhit word passretrig retrig (stats : list Z) cut cfg :
  length stats = 8%nat →
  let over := bool_decide (nhit > cut) in
  let ext := bool_decide (Z.land word (bitmask cfg) ≠ 0) in
  let rtg := passretrig && retrig && bool_decide (nhit > retrigcut cfg) in
  let key := (Z.b2z over + 2 * Z.b2z ext + 4 * Z.b2z rtg) in
  let '(pass, stats1) := l2filter nhit word passretrig retrig stats cut cfg in
  pass = over || ext || rtg
  ∧ 0 ≤ key < 8
  ∧ stats1 = <[Z.to_nat key := stats !!! Z.to_nat key + 1]> stats
  ∧ ∀ i : nat, (i < 8)%nat →
      stats1 !!! i = if decide (Z.of_nat i = key) then stats !!! i + 1
                     else stats !!! i.
Proof.
  intros Hlen over ext rtg key.
  pose proof (l2filter_stats nhit word passretrig retrig stats cut cfg Hlen) as Hst.
  pose proof (l2key_range nhit word passretrig retrig cut cfg) as Hkey.
  assert (l2cuts nhit word passretrig retrig cut cfg = (over || ext || rtg, key))
    as Hk.
  { unfold l2cuts, key, over, ext, rtg.
    destruct passretrig, retrig; repeat case_decide; simpl;
      repeat case_bool_decide; simpl; try done;
      exfalso; intuition (congruence || lia). }
  cbv zeta in Hst. rewrite Hk in Hst, Hkey. cbn [snd] in Hst, Hkey.
  assert ((l2filter nhit word passretrig retrig stats cut cfg).1
          = over || ext || rtg) as Hpass
    by (unfold l2filter; by rewrite Hk).
  destruct (l2filter nhit word passretrig retrig stats cut cfg) as [pass stats1].
  cbn [fst snd] in Hst, Hpass. subst pass stats1.
  split; [done|]. split; [done|]. split; [done|].
  intros i Hi. case_decide as Hik.
  - rewrite <- Hik, Nat2Z.id. apply list_lookup_total_insert_eq. lia.
  - apply list_lookup_total_insert_ne. lia.
Qed.

(** Thirty-five hits against a cut of thirty, trigger word 6 against the
    mask 4, no retrigger: accepted, bucket 3. *)
Lemma l2filter_decision_witness :
  length [0; 0; 0; 0; 0; 0; 0; 0] = 8%nat
  ∧ l2filter 35 6 true false [0; 0; 0; 0; 0; 0; 0; 0] 30 cfg_mask
    = (true, [0; 0; 0; 1; 0; 0; 0; 0]).
Proof.
  split; [reflexivity|].
  pose proof (l2filter_decision 35 6 true false [0; 0; 0; 0; 0; 0; 0; 0] 30
                cfg_mask eq_refl) as H.
  destruct (l2filter 35 6 true false [0; 0; 0; 0; 0; 0; 0; 0] 30 cfg_mask)
    as [pass stats1].
  destruct H as (-> & _ & -> & _); reflexivity.
Defined.

End Filter.

(* ===================================================================== *)
(** * The threshold controller *)
(* ===================================================================== *)

Module Threshold.
Import Stonehenge.

(** A record above [lothresh] arms the window. *)
Lemma setthreshold_arm nhit alltime cfg cut :
  nhit > lothresh cfg → 0 ≤ lowindow cfg →
  0 ≤ longtime alltime → longtime alltime + lowindow cfg < 2 ^ 64 →
  setthreshold nhit alltime cfg cut
  = (set_exptime (longtime alltime + lowindow cfg) alltime, nhitlo cfg).
Proof.
  intros Hn Hw H0 Hb. unfold setthreshold.
  rewrite decide_True by done.
  unfold u64. rewrite Z.mod_small by lia.
  destruct alltime; simpl in *. by rewrite decide_False by lia.
Qed.

(** A record that does not arm it only tests the expiry. *)
Lemma setthreshold_idle nhit alltime cfg cut :
  nhit ≤ lothresh cfg →
  setthreshold nhit alltime cfg cut
  = (alltime, if decide (longtime alltime > exptime alltime) then nhithi cfg
              else cut).
Proof.
  intros Hn. unfold setthreshold. rewrite decide_False by lia.
  by case_decide.
Qed.

(** After the window every record is filtered with the high cut. *)
Lemma cuts_expired cfg recs : ∀ alltime cut,
  idle cfg recs → Forall (λ r, r.2 > exptime alltime) recs →
  cuts cfg recs alltime cut = (λ _, nhithi cfg) <$> recs.
Proof.
  induction recs as [|[n t] recs IH]; intros alltime cut Hid Hex; [done|].
  inversion Hid; inversion Hex; subst; simpl in *.
  rewrite setthreshold_idle by done.
  destruct alltime; simpl in *. rewrite decide_True by done.
  f_equal. by apply IH.
Qed.

(** With the low cut selected and time running forward, the low cut holds
    up to the expiry tick and the high cut after it. *)
Lemma cuts_window cfg recs : ∀ alltime,
  idle cfg recs → StronglySorted Z.le (snd <$> recs) →
  cuts cfg recs alltime (nhitlo cfg)
  = (λ r, if decide (r.2 ≤ exptime alltime) then nhitlo cfg else nhithi cfg)
      <$> recs.
Proof.
  induction recs as [|[n t] recs IH]; intros alltime Hid Hs; [done|].
  inversion Hid as [|? ? Hn Hid']; subst.
  rewrite fmap_cons in Hs. apply StronglySorted_inv in Hs as [Hs Hle].
  rewrite Forall_fmap in Hle. simpl in Hn.
  cbn [cuts]. rewrite setthreshold_idle by done.
  destruct alltime as [t10 t50 lt ep wt owt ex]; simpl.
  destruct (decide (t > ex)) as [Hgt|Hle'].
  - rewrite decide_False by lia. f_equal.
    rewrite cuts_expired; [|done|].
    + apply list_fmap_ext. intros i [n' t'] Hi. simpl.
      rewrite decide_False; [done|].
      rewrite Forall_lookup in Hle.
      specialize (Hle i _ Hi). simpl in Hle. lia.
    + simpl. eapply Forall_impl; [exact Hle|]. simpl. intros [? ?]; simpl. lia.
  - rewrite decide_True by lia. f_equal.
    by rewrite IH.
Qed.

(** The controller on its own, with nothing between two calls of
    [setthreshold] but the advance of [longtime].  A record with
    [nhit > lothresh] at tick [T] arms the window: [exptime = T + lowindow]
    and the low cut is selected.  Of the records that follow without
    re-arming the window, in order of time, each one at a tick up to
    [T + lowindow] is filtered with the low cut and each one after it with
    the high cut, whatever their hit counts. *)
Theorem hysteresis cfg alltime cut nhit0 (recs : list (Z * Z)) :
  nhit0 > lothresh cfg → 0 ≤ lowindow cfg →
  0 ≤ longtime alltime → longtime alltime + lowindow cfg < 2 ^ 64 →
  idle cfg recs → StronglySorted Z.le (snd <$> recs) →
  let T := longtime alltime in
  let '(armed, cut1) := setthreshold nhit0 alltime cfg cut in
  exptime armed = T + lowindow cfg ∧ cut1 = nhitlo cfg
  ∧ cuts cfg recs armed cut1
    = (λ r, if decide (r.2 ≤ T + lowindow cfg) then nhitlo cfg else nhithi cfg)
        <$> recs.
Proof.
  intros Hn Hw H0 Hb Hid Hs T.
  rewrite setthreshold_arm by done.
  split; [by destruct alltime|]. split; [done|].
  rewrite cuts_window by done. by destruct alltime.
Qed.

(** A window of 1000 ticks armed at tick 500: low cut (20) at ticks 501 and
    1500, high cut (30) at ticks 1501 and 1600. *)
Lemma hysteresis_witness :
  idle cfg0 quiet ∧ StronglySorted Z.le (snd <$> quiet)
  ∧ cuts cfg0 quiet (setthreshold 41 tick500 cfg0 30).1
         (setthreshold 41 tick500 cfg0 30).2
    = [20; 20; 30; 30].
Proof.
  assert (idle cfg0 quiet) as Hid by (repeat constructor; simpl; lia).
  assert (StronglySorted Z.le (snd <$> quiet)) as Hs
    by (repeat constructor; simpl; lia).
  split; [exact Hid|]. split; [exact Hs|].
  pose proof (hysteresis cfg0 tick500 30 41 quiet) as H.
  destruct (setthreshold 41 tick500 cfg0 30) as [armed cut1].
  destruct H as (_ & _ & H); [simpl; lia..| exact Hid | exact Hs |].
  cbn [fst snd]. rewrite H. reflexivity.
Defined.

End Threshold.

(* ===================================================================== *)
(** * The decoder and the record loop *)
(* ===================================================================== *)

Module Decoder.
Import Stonehenge.

Lemma ReadHits_malformed fuel zrec hit buf :
  bank_name zrec = ZDAB_RECORD → SWAP_PMT_RECORD (data zrec) = Some buf →
  NPmtHit buf > MAX_NHIT →
  ReadHits fuel zrec hit
  = Returned 1 (mkNZDAB (bank_name zrec) buf) (set_nhit (NPmtHit buf) hit)
             [Stderr (msg_badzdab (NPmtHit buf)); Alarm 30 msg_toomany 0].
Proof.
  intros Hb Hs Hn. unfold ReadHits.
  rewrite decide_False by (intros ?; done). rewrite Hs. simpl.
  by rewrite decide_True by done.
Qed.

Lemma ReadHits_escape fuel zrec hit buf buf1 :
  bank_name zrec = ZDAB_RECORD → SWAP_PMT_RECORD (data zrec) = Some buf →
  NPmtHit buf ≤ MAX_NHIT →
  sub_walk fuel buf CalPckType (u32 (20 + 3 * NPmtHit buf)) = WalkEscape buf1 →
  ReadHits fuel zrec hit
  = Returned 0 (mkNZDAB (bank_name zrec) buf1)
             (read_fields buf (set_nhit (NPmtHit buf) hit)) [Stderr msg_jump].
Proof.
  intros Hb Hs Hn Hw. unfold ReadHits.
  rewrite decide_False by (intros ?; done). rewrite Hs. simpl.
  rewrite decide_False by lia. by rewrite Hw.
Qed.

Lemma testbit_ff i : Z.testbit 0xff i = bool_decide (0 ≤ i < 8).
Proof.
  change 0xff with (Z.ones 8).
  case_bool_decide.
  - apply Z.ones_spec_low. lia.
  - destruct (decide (i < 0)).
    + by apply Z.testbit_neg_r.
    + apply Z.ones_spec_high. lia.
Qed.

Lemma testbit_ff00 i : Z.testbit 0xff00 i = bool_decide (8 ≤ i < 16).
Proof.
  destruct (decide (i < 0)).
  { rewrite Z.testbit_neg_r by done. by rewrite bool_decide_false by lia. }
  change 0xff00 with (Z.shiftl 0xff 8).
  rewrite Z.shiftl_spec, testbit_ff by lia.
  apply bool_decide_ext. lia.
Qed.

(** Bit [i] of the swapped word is the bit of the same rank in the
    mirrored byte. *)
Lemma swap_word_testbit w i :
  0 ≤ i →
  Z.testbit (swap_word w) i =
    if decide (i < 8) then Z.testbit w (i + 24)
    else if decide (i < 16) then Z.testbit w (i + 8)
    else if decide (i < 24) then Z.testbit w (i - 8)
    else if decide (i < 32) then Z.testbit w (i - 24)
    else false.
Proof.
  intros Hi. unfold swap_word.
  rewrite !Z.lor_spec, !Z.land_spec, !Z.shiftl_spec, !Z.shiftr_spec,
    !Z.land_spec, !testbit_ff, !testbit_ff00 by lia.
  repeat case_decide; repeat case_bool_decide; try lia; simpl;
    rewrite ?andb_true_r, ?andb_false_r, ?orb_false_r; done.
Qed.

(** The byte swap is its own inverse on 32-bit words. *)
Lemma swap_word_involutive w : 0 ≤ w < 2 ^ 32 → swap_word (swap_word w) = w.
Proof.
  intros Hw. apply Z.bits_inj'. intros i Hi.
  rewrite swap_word_testbit by done.
  repeat case_decide; rewrite ?swap_word_testbit by lia;
    repeat case_decide; try lia; try (f_equal; lia).
  symmetry. apply Z.bits_above_log2; [lia|].
  destruct (decide (w = 0)) as [->|]; [simpl; lia|].
  apply Z.log2_lt_pow2; [lia|].
  apply Z.lt_le_trans with (2 ^ 32); [lia|].
  apply Z.pow_le_mono_r; lia.
Qed.

Lemma SWAP_INT32_length buf p n buf1 :
  SWAP_INT32 buf p n = Some buf1 →
  length buf1 = length buf ∧ (p + n ≤ length buf)%nat.
Proof.
  unfold SWAP_INT32. case_decide as Hlen; [|done]. intros [= <-].
  rewrite !length_app, length_fmap, !length_take, !length_drop. lia.
Qed.

Lemma SWAP_INT32_none buf p : (p ≤ length buf)%nat → SWAP_INT32 buf p 0 = Some buf.
Proof.
  intros Hp. unfold SWAP_INT32. rewrite decide_True by lia.
  rewrite take_0. simpl. rewrite Nat.add_0_r. by rewrite take_drop.
Qed.

(** So is [SWAP_INT32] over the same range of a buffer of 32-bit words. *)
Lemma SWAP_INT32_involutive buf p n buf1 :
  words buf → SWAP_INT32 buf p n = Some buf1 → SWAP_INT32 buf1 p n = Some buf.
Proof.
  intros Hw. unfold SWAP_INT32. case_decide as Hlen; [|done].
  intros [= <-].
  assert (length (take p buf) = p) as Hp by (rewrite length_take; lia).
  assert (length (swap_word <$> take n (drop p buf)) = n) as Hn
    by (rewrite length_fmap, length_take, length_drop; lia).
  rewrite decide_True by (rewrite !length_app, Hp, Hn, length_drop; lia).
  rewrite take_app_length' by done.
  rewrite drop_app_length' by done.
  rewrite take_app_length' by done.
  rewrite (app_assoc (take p buf) (swap_word <$> take n (drop p buf))),
    drop_app_length' by (rewrite length_app; lia).
  rewrite <- list_fmap_compose.
  assert ((swap_word ∘ swap_word) <$> take n (drop p buf) = take n (drop p buf))
    as ->.
  { rewrite <- (list_fmap_id (take n (drop p buf))) at 2.
    apply list_fmap_ext. intros i w Hi. simpl. apply swap_word_involutive.
    assert (w ∈ buf) as Hin.
    { apply lookup_take_Some in Hi as [Hi _]. rewrite lookup_drop in Hi.
      eapply list_elem_of_lookup_2, Hi. }
    unfold words in Hw. rewrite Forall_forall in Hw. by apply Hw. }
  rewrite <- drop_drop, !take_drop. done.
Qed.

(** A hit record with no hit and no sub-record is handed back as it came:
    the two swaps of the [PmtEventRecord] cancel. *)
Lemma ReadHits_restores_plain fuel zrec hit buf :
  bank_name zrec = ZDAB_RECORD → words (data zrec) →
  SWAP_PMT_RECORD (data zrec) = Some buf →
  NPmtHit buf = 0 → Z.land (word buf CalPckType) SUB_NOT_LAST = 0 →
  fuel ≠ 0%nat →
  ∃ hit1, ReadHits fuel zrec hit = Returned 0 zrec hit1 [].
Proof.
  intros Hb Hw Hs Hn Hlast Hfuel. unfold ReadHits.
  rewrite decide_False by (intros ?; done). rewrite Hs. simpl.
  rewrite Hn. rewrite decide_False by (unfold MAX_NHIT; lia).
  destruct fuel as [|fuel]; [done|]. simpl.
  pose proof (SWAP_INT32_length _ _ _ _ Hs) as [Hlen Hpmt].
  unfold PMT_WORDS in Hpmt.
  assert (buf !! CalPckType = Some (word buf CalPckType)) as ->.
  { apply list_lookup_lookup_total_lt. unfold CalPckType. lia. }
  rewrite decide_False by (intros ?; done).
  unfold restore. unfold SWAP_PMT_RECORD in *.
  rewrite (SWAP_INT32_involutive _ _ _ _ Hw Hs). simpl.
  rewrite SWAP_INT32_none by (unfold PMT_WORDS; lia).
  eexists. by destruct zrec.
Qed.

Section Loop.

Variable FillHeaderBuffer : nZDAB → Z.
Variable SetConfig : Z → configuration.
Variable yesredis : bool.

(** A record with a run type: the alarm ends the effects of the two tests,
    whether the configuration was known or not. *)
Lemma header_rhdr zrec s :
  FillHeaderBuffer zrec ≠ 0 →
  ∃ s1 eff,
    header FillHeaderBuffer SetConfig zrec s = (s1, eff ++ [Alarm 30 msg_rhdr 0])
    ∧ configknown s1 = true
    ∧ (configknown s = false →
       eff = [WriteConfig (SetConfig (FillHeaderBuffer zrec))]).
Proof.
  intros Hr. unfold header.
  destruct (configknown s) eqn:Hk.
  - rewrite decide_False by (intros [_ ?]; done).
    rewrite decide_True by done. exists s, []. by rewrite Hk.
  - rewrite decide_True by done. simpl.
    rewrite decide_True by done.
    exists (set_configknown true
      (set_clk (set_config (SetConfig (FillHeaderBuffer zrec)) (clk s)) s)),
      [WriteConfig (SetConfig (FillHeaderBuffer zrec))].
    by destruct s.
Qed.

(** The trace of a turn starts with the effects of the two tests. *)
Lemma main_step_trace fuel now burst zrec s :
  ∃ rest, (main_step FillHeaderBuffer SetConfig yesredis fuel now burst zrec s).2
          = (header FillHeaderBuffer SetConfig zrec s).2 ++ rest.
Proof.
  unfold main_step.
  destruct (header FillHeaderBuffer SetConfig zrec s) as [s1 e1]. simpl.
  destruct (ReadHits fuel zrec (hits s1)) as [ret z h e2| |].
  - destruct (if decide (ret = 0) then _ else _) as [s3 e3].
    simpl. by eexists.
  - exists []. by rewrite app_nil_r.
  - exists []. by rewrite app_nil_r.
Qed.

Lemma header_frame zrec s :
  hits (header FillHeaderBuffer SetConfig zrec s).1 = hits s
  ∧ stats (header FillHeaderBuffer SetConfig zrec s).1 = stats s
  ∧ count (header FillHeaderBuffer SetConfig zrec s).1 = count s
  ∧ alltime (header FillHeaderBuffer SetConfig zrec s).1 = alltime s.
Proof.
  unfold header. repeat case_decide; by destruct s.
Qed.

(** A record processed as an event is counted and fills one bucket. *)
Lemma event_counts now burst zrec s :
  length (stats s) = 8%nat →
  count (event SetConfig yesredis now burst zrec s).1 = incr_eventn (count s)
  ∧ ∃ k : nat, (k < 8)%nat
      ∧ stats (event SetConfig yesredis now burst zrec s).1
        = <[k := stats s !!! k + 1]> (stats s).
Proof.
  intros Hlen. unfold event.
  destruct (compute_times _ _ _ _) as [[at1 c1] e1].
  destruct (if configknown s then _ else _) as [c2 e3].
  destruct (setthreshold _ _ _ _) as [at3 cut].
  destruct (if decide _ then _ else _) as [c4 e4].
  pose proof (Filter.l2filter_stats (u16 (nhit (hits s)))
                (u32 (triggertype (hits s))) (passretrig c4) (retrig c4)
                (stats s) (NHITCUT c4) (config c4) Hlen) as H.
  pose proof (Filter.l2key_range (u16 (nhit (hits s)))
                (u32 (triggertype (hits s))) (passretrig c4) (retrig c4)
                (NHITCUT c4) (config c4)) as Hk.
  destruct (l2filter _ _ _ _ _ _ _) as [pass stats1].
  cbv zeta in H. simpl in H. subst stats1.
  destruct (if pass then _ else _) as [c5 e5]. simpl.
  split; [done|]. eexists. split; [|reflexivity]. lia.
Qed.

(** C10.  Every record in which [FillHeaderBuffer] finds a run type raises
    the alarm about a run header in the middle of a run, the first such
    record of the run included: there the configuration is loaded, the
    flag [configknown] is set, and the test that follows sees it set. *)
Theorem rhdr_always_alarms fuel now burst zrec s :
  FillHeaderBuffer zrec ≠ 0 →
  Alarm 30 msg_rhdr 0
    ∈ (main_step FillHeaderBuffer SetConfig yesredis fuel now burst zrec s).2
  ∧ (configknown s = false →
     (header FillHeaderBuffer SetConfig zrec s).2
     = [WriteConfig (SetConfig (FillHeaderBuffer zrec)); Alarm 30 msg_rhdr 0]
     ∧ configknown (header FillHeaderBuffer SetConfig zrec s).1 = true).
Proof.
  intros Hr.
  destruct (header_rhdr zrec s Hr) as (s1 & eff & Hh & Hk & Hfirst).
  destruct (main_step_trace fuel now burst zrec s) as [rest ->].
  rewrite Hh. simpl. split.
  - rewrite !elem_of_app, list_elem_of_singleton. auto.
  - intros Hf. rewrite (Hfirst Hf). done.
Qed.

(** C5 (amended).  A hit record whose hit count exceeds 10240 makes
    [ReadHits] return 1 after the alarm.  The loop then treats the record
    like a non-event record: it is not counted as an event, the time state
    and the eight buckets are left as they were, the record is passed to
    the output writer, the record count advances and the loop goes on with
    the records that follow. *)
Theorem malformed_record fuel now burst zrec s buf rest :
  bank_name zrec = ZDAB_RECORD → SWAP_PMT_RECORD (data zrec) = Some buf →
  NPmtHit buf > MAX_NHIT →
  (∃ zrec1, ReadHits fuel zrec (hits s)
            = Returned 1 zrec1 (set_nhit (NPmtHit buf) (hits s))
                       [Stderr (msg_badzdab (NPmtHit buf));
                        Alarm 30 msg_toomany 0])
  ∧ ∃ s1 eff,
      main_step FillHeaderBuffer SetConfig yesredis fuel now burst zrec s
      = (Continue, s1, eff)
      ∧ Alarm 30 msg_toomany 0 ∈ eff
      ∧ written eff
      ∧ stats s1 = stats s
      ∧ eventn (count s1) = eventn (count s)
      ∧ alltime s1 = alltime s
      ∧ recordn (count s1) = u64 (recordn (count s) + 1)
      ∧ main_loop FillHeaderBuffer SetConfig yesredis fuel
          ((now, burst, zrec) :: rest) s
        = (let '(st, s2, e2) :=
             main_loop FillHeaderBuffer SetConfig yesredis fuel rest s1 in
           (st, s2, eff ++ e2)).
Proof.
  intros Hb Hs Hn.
  split; [eexists; by apply ReadHits_malformed|].
  cbn [main_loop]. unfold main_step.
  pose proof (header_frame zrec s) as (Hh & Hst & Hc & Ha).
  destruct (header FillHeaderBuffer SetConfig zrec s) as [s0 e0]. simpl in *.
  rewrite Hh, (ReadHits_malformed _ _ _ buf) by done.
  rewrite decide_False by done. simpl.
  eexists _, _. split; [reflexivity|].
  split; [rewrite !elem_of_app, !elem_of_cons; auto|].
  split.
  { exists (mkNZDAB (bank_name zrec) buf).
    rewrite !elem_of_app, !elem_of_cons; auto. }
  simpl. rewrite Hst, Hc, Ha. done.
Qed.

(** C3.  When a jump of the walk exceeds [MAX_BUFFSIZE/4], [ReadHits]
    prints a line on the standard error stream and returns 0, the value
    that means a hit was read; it raises no alarm.  The loop therefore
    counts the record as an event and adds it to one of the eight
    buckets. *)
Theorem escape_is_processed fuel now burst zrec s buf buf1 :
  bank_name zrec = ZDAB_RECORD → SWAP_PMT_RECORD (data zrec) = Some buf →
  NPmtHit buf ≤ MAX_NHIT →
  sub_walk fuel buf CalPckType (u32 (20 + 3 * NPmtHit buf)) = WalkEscape buf1 →
  length (stats s) = 8%nat →
  ReadHits fuel zrec (hits s)
  = Returned 0 (mkNZDAB (bank_name zrec) buf1)
             (read_fields buf (set_nhit (NPmtHit buf) (hits s))) [Stderr msg_jump]
  ∧ ∃ s1 eff,
      main_step FillHeaderBuffer SetConfig yesredis fuel now burst zrec s
      = (Continue, s1, eff)
      ∧ eventn (count s1) = u64 (eventn (count s) + 1)
      ∧ ∃ k : nat, (k < 8)%nat ∧ stats s1 = <[k := stats s !!! k + 1]> (stats s).
Proof.
  intros Hb Hs Hn Hw Hlen. split; [by apply ReadHits_escape|].
  unfold main_step.
  pose proof (header_frame zrec s) as (Hh & Hst & Hc & _).
  destruct (header FillHeaderBuffer SetConfig zrec s) as [s0 e0]. simpl in *.
  rewrite Hh, (ReadHits_escape _ _ _ buf buf1) by done.
  rewrite decide_True by done.
  set (s2 := set_hits _ s0).
  assert (length (stats s2) = 8%nat) as Hlen2 by (subst s2; simpl; congruence).
  pose proof (event_counts now burst (mkNZDAB (bank_name zrec) buf1) s2 Hlen2)
    as [Hcount (k & Hk & Hstats)].
  destruct (event _ _ _ _ _ _) as [s3 e3]. simpl in *.
  eexists _, _. split; [reflexivity|]. simpl.
  rewrite Hcount, Hstats. subst s2; simpl. rewrite Hc, Hst. eauto.
Qed.

End Loop.

(** The first run header of a run raises the alarm. *)
Lemma rhdr_always_alarms_witness :
  rhdr_everywhere one_hit ≠ 0
  ∧ configknown main_unconfigured = false
  ∧ Alarm 30 msg_rhdr 0
      ∈ (main_step rhdr_everywhere one_config false 1 1 false one_hit
           main_unconfigured).2.
Proof.
  assert (rhdr_everywhere one_hit ≠ 0) as Hr by (unfold rhdr_everywhere; lia).
  split; [exact Hr|]. split; [reflexivity|].
  exact (proj1 (rhdr_always_alarms rhdr_everywhere one_config false 1 1 false
                  one_hit main_unconfigured Hr)).
Defined.

Lemma malformed_record_witness :
  SWAP_PMT_RECORD (data too_many) = Some (host_order 10241 0)
  ∧ NPmtHit (host_order 10241 0) > MAX_NHIT
  ∧ ∃ zrec1, ReadHits 1 too_many hit0
             = Returned 1 zrec1 (set_nhit 10241 hit0)
                        [Stderr (msg_badzdab 10241); Alarm 30 msg_toomany 0].
Proof.
  split; [reflexivity|]. split; [reflexivity|].
  exact (proj1 (malformed_record no_runtype one_config false 1 0 false too_many
                  main0 (host_order 10241 0) [] eq_refl eq_refl eq_refl)).
Defined.

(** C5 (as stated) fails: the record with too many hits is not dropped; the
    loop hands it, header byte-swapped, to the output writer. *)
Lemma malformed_record_is_written :
  NPmtHit (host_order 10241 0) = 10241
  ∧ (main_step no_runtype one_config false 1 0 false too_many main0).2
    = [Stderr (msg_badzdab 10241); Alarm 30 msg_toomany 0;
       OutZdab (mkNZDAB ZDAB_RECORD (host_order 10241 0))]
  ∧ written (main_step no_runtype one_config false 1 0 false too_many main0).2.
Proof.
  assert ((main_step no_runtype one_config false 1 0 false too_many main0).2
          = [Stderr (msg_badzdab 10241); Alarm 30 msg_toomany 0;
             OutZdab (mkNZDAB ZDAB_RECORD (host_order 10241 0))])
    as Heff by reflexivity.
  split; [reflexivity|]. split; [exact Heff|].
  exists (mkNZDAB ZDAB_RECORD (host_order 10241 0)).
  rewrite Heff, !elem_of_cons. auto.
Qed.

(** The failing input of C3: a hit record with no hits whose first
    sub-record header announces a further record 0x100001 words ahead. *)
Lemma escape_is_processed_witness :
  SWAP_PMT_RECORD (data escaping) = Some (host_order 0 (SUB_NOT_LAST + 0x100001))
  ∧ sub_walk 1 (host_order 0 (SUB_NOT_LAST + 0x100001)) CalPckType
      (u32 (20 + 3 * NPmtHit (host_order 0 (SUB_NOT_LAST + 0x100001))))
    = WalkEscape (host_order 0 (SUB_NOT_LAST + 0x100001))
  ∧ ReadHits 1 escaping hit0
    = Returned 0 (mkNZDAB ZDAB_RECORD (host_order 0 (SUB_NOT_LAST + 0x100001)))
               hit0 [Stderr msg_jump].
Proof.
  split; [reflexivity|]. split; [reflexivity|].
  exact (proj1 (escape_is_processed no_runtype one_config false 1 0 false
                  escaping main0 (host_order 0 (SUB_NOT_LAST + 0x100001))
                  (host_order 0 (SUB_NOT_LAST + 0x100001))
                  eq_refl eq_refl ltac:(vm_compute; discriminate)
                  eq_refl eq_refl)).
Defined.

(** At that input one turn of the loop counts an event and fills a bucket;
    its whole trace is the line on the standard error stream, the check
    of the first event and the flush of the error log. *)
Lemma escape_record_counted :
  (main_step no_runtype one_config false 1 1 false escaping main0).1.1 = Continue
  ∧ eventn (count (main_step no_runtype one_config false 1 1 false escaping
                     main0).1.2) = 1
  ∧ stats (main_step no_runtype one_config false 1 1 false escaping main0).1.2
    = [1; 0; 0; 0; 0; 0; 0; 0]
  ∧ (main_step no_runtype one_config false 1 1 false escaping main0).2
    = [Stderr msg_jump; Checkbuffer 0; Flusherrors].
Proof. repeat split; reflexivity. Qed.

(** C4.  The buffer [ReadHits] leaves is not the buffer it was given.  On
    the ordinary path (one hit, no sub-record) the three data words of the
    hit, never swapped on the way in, are swapped on the way out.  On the
    return for too many hits the [PmtEventRecord] stays swapped. *)
Theorem ReadHits_not_restored :
  (∃ hit, ReadHits 1 one_hit hit0
          = Returned 0 (hit_record 1 0 [swap_word 1; swap_word 2; swap_word 3])
                     hit []
          ∧ nhit hit = 1 ∧ reclen hit = 23)
  ∧ data one_hit !! 11%nat = Some 1
  ∧ swap_word 1 = 0x01000000
  ∧ (∃ hit, ReadHits 1 too_many hit0
            = Returned 1 (mkNZDAB ZDAB_RECORD (host_order 10241 0)) hit
                       [Stderr (msg_badzdab 10241); Alarm 30 msg_toomany 0])
  ∧ data too_many !! 3%nat = Some 0x01280000.
Proof.
  split; [eexists; repeat split; reflexivity|].
  split; [reflexivity|]. split; [reflexivity|].
  split; [eexists; reflexivity | reflexivity].
Qed.

End Decoder.

(* ===================================================================== *)
(** * The alarm limiter over a run of requests *)
(* ===================================================================== *)

Module AlarmAccounting.
Import Curl.

Ltac five l :=
  destruct l as [|? [|? [|? [|? [|? [|]]]]]]; try discriminate.

(** The flush, if any, can be taken ahead of the request. *)
Lemma alarm_after_flush w level msg s :
  length (alarmn s) = 5%nat → length (overflow s) = 5%nat →
  ∃ s1 p, flush w s = (s1, p) ∧ oldwalltime s1 = w
    ∧ (length p ≤ 1)%nat
    ∧ (w = oldwalltime s → s1 = s ∧ p = [])
    ∧ (w ≠ oldwalltime s →
       alarmn s1 = zeros ∧ overflow s1 = zeros
       ∧ p = if decide (total (overflow s) ≠ 0)
             then [overflowmsg (total (overflow s))] else [])
    ∧ alarm w level msg s
      = (let '(s2, q) := alarm w level msg s1 in (s2, p ++ q)).
Proof.
  intros Han Hov. unfold flush.
  destruct (decide (w ≠ oldwalltime s)) as [Hw|Hw].
  - rewrite (AlarmLimiter.flush_loop_wf s) by done. fold (total (overflow s)).
    exists {| alarmn := zeros; overflow := zeros; oldwalltime := w |},
      (if decide (total (overflow s) ≠ 0)
       then [overflowmsg (total (overflow s))] else []).
    split; [reflexivity|]. split; [reflexivity|].
    split; [case_decide; simpl; lia|].
    split; [intros ?; contradiction|].
    split; [intros _; repeat split; reflexivity|].
    unfold alarm, flush.
    rewrite (decide_True (P := w ≠ oldwalltime s)) by done.
    rewrite (AlarmLimiter.flush_loop_wf s) by done. fold (total (overflow s)).
    cbn [oldwalltime alarmn overflow].
    rewrite (decide_False (P := w ≠ w)) by (intros ?; done).
    cbn [oldwalltime alarmn overflow].
    destruct (decide (_ > _)); simpl; by rewrite ?app_nil_r.
  - assert (w = oldwalltime s) as Heq
      by (destruct (decide (w = oldwalltime s)); tauto).
    exists s, [].
    split; [reflexivity|]. split; [done|]. split; [simpl; lia|].
    split; [done|]. split; [intros ?; contradiction|].
    unfold alarm. rewrite AlarmLimiter.flush_same by done.
    destruct (decide (_ > _)); done.
Qed.

(** A request in the running second: what it does to the counters. *)
Lemma alarm_same_accounts w level msg s :
  w = oldwalltime s → counting s →
  let '(s1, p) := alarm w level msg s in
  counting s1 ∧ oldwalltime s1 = w
  ∧ Z.of_nat (length p) + room s1 = room s
  ∧ Z.of_nat (length p) + total (overflow s1) = total (overflow s) + 1
  ∧ (p = [] ∨ p = [curlmsg level msg]).
Proof.
  intros Hw (Han & Hov & Hpa & Hpo).
  rewrite AlarmLimiter.alarm_same by done. cbv zeta.
  destruct s as [an ov t]; simpl in *.
  five an. five ov.
  repeat match goal with H : Forall _ (_ :: _) |- _ => inversion_clear H end.
  unfold counting, room, total, budget.
  destruct (type level); simpl; case_decide; simpl;
    repeat split; try done; try lia; try (by left); try (by right);
    repeat constructor; lia.
Qed.


Lemma counting_flush w s :
  counting s → counting (flush w s).1 ∧ oldwalltime (flush w s).1 = w.
Proof.
  intros Hc. pose proof Hc as (Han & Hov & _).
  destruct (alarm_after_flush w 0 "" s Han Hov)
    as (s1 & p & -> & Hw & _ & Hsame & Hnew & _).
  simpl. split; [|done].
  destruct (decide (w = oldwalltime s)) as [Heq|Hne].
  - by destruct (Hsame Heq) as [-> _].
  - destruct (Hnew Hne) as (Ha & Ho & _).
    unfold counting. rewrite Ha, Ho. unfold zeros.
    repeat split; repeat constructor; lia.
Qed.

Lemma room_bounds s : counting s → 0 ≤ room s ≤ 16.
Proof.
  intros (Han & Hov & Hpa & _). destruct s as [an ov t]; simpl in *.
  five an.
  repeat match goal with H : Forall _ (_ :: _) |- _ => inversion_clear H end.
  unfold room, total; simpl. lia.
Qed.

(** A run of requests within the running second. *)
Lemma run_same_accounts w reqs : ∀ s,
  in_second w reqs → w = oldwalltime s → counting s →
  let '(s1, p) := alarms reqs s in
  counting s1 ∧ oldwalltime s1 = w
  ∧ Z.of_nat (length p) + room s1 = room s
  ∧ Z.of_nat (length p) + total (overflow s1)
    = total (overflow s) + Z.of_nat (length reqs)
  ∧ p `sublist_of` ((λ r, curlmsg r.1.2 r.2) <$> reqs).
Proof.
  induction reqs as [|[[w0 level] msg] reqs IH]; intros s Hin Hw Hc.
  - simpl. repeat split; try done; try lia; apply Hc.
  - inversion_clear Hin as [|? ? Hw0 Hrest]. simpl in Hw0. subst w0.
    cbn [alarms].
    pose proof (alarm_same_accounts w level msg s Hw Hc) as H1.
    destruct (alarm w level msg s) as [s1 p1].
    destruct H1 as (Hc1 & Hw1 & Hr1 & Ho1 & Hp1).
    specialize (IH s1 Hrest (eq_sym Hw1) Hc1).
    destruct (alarms reqs s1) as [s2 p2].
    destruct IH as (Hc2 & Hw2 & Hr2 & Ho2 & Hp2).
    rewrite length_app, Nat2Z.inj_add. cbn [length].
    split; [done|]. split; [done|]. split; [lia|]. split; [lia|].
    rewrite fmap_cons. cbn [fst snd].
    destruct Hp1 as [-> | ->]; simpl.
    + by apply sublist_cons.
    + by apply sublist_skip.
Qed.

(** X1.  Whatever the requests and their wall-clock seconds, the two
    arrays keep their five elements and every counter stays a count. *)
Theorem limiter_keeps_counting reqs : ∀ s,
  counting s → counting (alarms reqs s).1.
Proof.
  induction reqs as [|[[w level] msg] reqs IH]; intros s Hc; [done|].
  cbn [alarms].
  assert (counting (alarm w level msg s).1) as Hc1.
  { pose proof Hc as (Han & Hov & _).
    destruct (alarm_after_flush w level msg s Han Hov)
      as (s1 & p & Hf & Hw & _ & _ & _ & ->).
    pose proof (counting_flush w s Hc) as [Hcf _]. rewrite Hf in Hcf.
    pose proof (alarm_same_accounts w level msg s1 (eq_sym Hw) Hcf) as H1.
    destruct (alarm w level msg s1) as [s2 q]. simpl. apply H1. }
  specialize (IH _ Hc1).
  destruct (alarm w level msg s) as [s1 p1]. simpl in IH.
  destruct (alarms reqs s1) as [s2 p2]. exact IH.
Qed.

Lemma limiter_keeps_counting_witness :
  counting stormy
  ∧ counting (alarms [(1, 30, "a"); (1, 99, "b"); (2, 40, "c")] stormy).1.
Proof.
  assert (counting stormy) as Hc
    by (repeat split; repeat constructor; lia).
  split; [exact Hc|].
  exact (limiter_keeps_counting [(1, 30, "a"); (1, 99, "b"); (2, 40, "c")]
           stormy Hc).
Defined.

(** A run of one second, whether it opens the second or not: the flush
    comes first, then the run in the running second. *)
Lemma run_after_flush w reqs s :
  in_second w reqs → reqs ≠ [] → counting s →
  alarms reqs s
  = (let '(s2, q) := alarms reqs (flush w s).1 in (s2, (flush w s).2 ++ q)).
Proof.
  intros Hin Hne Hc. destruct reqs as [|[[w0 level] msg] reqs]; [done|].
  inversion_clear Hin as [|? ? Hw0 _]. simpl in Hw0. subst w0.
  cbn [alarms].
  pose proof Hc as (Han & Hov & _).
  destruct (alarm_after_flush w level msg s Han Hov)
    as (s1 & p & Hf & _ & _ & _ & _ & ->).
  rewrite Hf. simpl.
  destruct (alarm w level msg s1) as [s2 q].
  destruct (alarms reqs s2) as [s3 q3]. by rewrite app_assoc.
Qed.

(** X2.  In one wall-clock second the limiter posts at most seventeen
    bodies: the sixteen the five budgets add up to and one overflow
    report. *)
Theorem limiter_rate_bound w reqs s :
  counting s → in_second w reqs →
  (length (alarms reqs s).2 ≤ 17)%nat.
Proof.
  intros Hc Hin. destruct (decide (reqs = [])) as [->|Hne]; [simpl; lia|].
  rewrite (run_after_flush w) by done.
  pose proof (counting_flush w s Hc) as [Hc1 Hw1].
  pose proof Hc as (Han & Hov & _).
  destruct (alarm_after_flush w 0 "" s Han Hov)
    as (s1 & p & Hf & _ & Hp & _).
  rewrite Hf in *. simpl in *.
  pose proof (run_same_accounts w reqs s1 Hin (eq_sym Hw1) Hc1) as H.
  destruct (alarms reqs s1) as [s2 q]. simpl.
  destruct H as (Hc2 & _ & Hr & _).
  pose proof (room_bounds s1 Hc1). pose proof (room_bounds s2 Hc2).
  rewrite length_app. lia.
Qed.

Lemma limiter_rate_bound_witness :
  counting stormy ∧ in_second 1 (burst 1 30 (replicate 40 "x"))
  ∧ (length (alarms (burst 1 30 (replicate 40 "x")) stormy).2 ≤ 17)%nat.
Proof.
  assert (counting stormy) as Hc
    by (repeat split; repeat constructor; lia).
  assert (in_second 1 (burst 1 30 (replicate 40 "x"))) as Hin
    by (repeat constructor).
  split; [exact Hc|]. split; [exact Hin|].
  exact (limiter_rate_bound 1 _ stormy Hc Hin).
Defined.

(** X3.  The overflow report is exact: after a run of requests that opens
    and fills one second, the first request of another second posts a
    report whose number is the number of requests of the run that were
    not forwarded, and no report if all were. *)
Theorem report_counts_dropped w w1 level msg reqs s :
  counting s → w ≠ oldwalltime s → in_second w reqs → reqs ≠ [] → w1 ≠ w →
  let '(s1, p) := alarms reqs s in
  let forwarded := (length p - length (flush w s).2)%nat in
  let dropped := Z.of_nat (length reqs) - Z.of_nat forwarded in
  0 ≤ dropped
  ∧ (alarm w1 level msg s1).2
    = (if decide (dropped ≠ 0) then [overflowmsg dropped] else [])
        ++ [curlmsg level msg].
Proof.
  intros Hc Hw Hin Hne Hw1.
  rewrite (run_after_flush w) by done.
  pose proof (counting_flush w s Hc) as [Hc1 Hw2].
  pose proof Hc as (Han & Hov & _).
  destruct (alarm_after_flush w 0 "" s Han Hov)
    as (s1 & p & Hf & _ & _ & _ & Hnew & _).
  destruct (Hnew Hw) as (_ & Hov1 & _).
  rewrite Hf in *. simpl in *.
  pose proof (run_same_accounts w reqs s1 Hin (eq_sym Hw2) Hc1) as H.
  destruct (alarms reqs s1) as [s2 q]. cbv zeta.
  destruct H as (Hc2 & Hw3 & _ & Ho & _).
  rewrite Hov1 in Ho. change (total zeros) with 0 in Ho.
  rewrite length_app.
  replace (length p + length q - length p)%nat with (length q) by lia.
  assert (total (overflow s2)
          = Z.of_nat (length reqs) - Z.of_nat (length q)) as Htot by lia.
  rewrite <- Htot.
  destruct Hc2 as (Han2 & Hov2 & _ & Hpos).
  split.
  { clear -Hpos. unfold total. induction Hpos; simpl; lia. }
  rewrite AlarmLimiter.alarm_new_second by (done || congruence).
  done.
Qed.

Lemma report_counts_dropped_witness :
  counting stormy ∧ in_second 1 (burst 1 40 ["a"; "b"; "c"])
  ∧ (alarm 2 20 "next" (alarms (burst 1 40 ["a"; "b"; "c"]) stormy).1).2
    = [overflowmsg 2; curlmsg 20 "next"].
Proof.
  assert (counting stormy) as Hc
    by (repeat split; repeat constructor; lia).
  assert (in_second 1 (burst 1 40 ["a"; "b"; "c"])) as Hin
    by (repeat constructor).
  split; [exact Hc|]. split; [exact Hin|].
  pose proof (report_counts_dropped 1 2 20 "next" (burst 1 40 ["a"; "b"; "c"])
                stormy Hc) as H.
  assert (alarms (burst 1 40 ["a"; "b"; "c"]) stormy
          = ({| alarmn := [0; 0; 0; 0; 3]; overflow := [0; 0; 0; 0; 2];
                oldwalltime := 1 |}, [overflowmsg 3; curlmsg 40 "a"])) as Hr
    by reflexivity.
  rewrite Hr in *.
  destruct H as [_ H]; [simpl; lia | exact Hin | discriminate | lia |].
  etransitivity; [exact H | reflexivity].
Defined.

(** X4.  Within the running second the limiter forwards the requests in
    the order they came, each at most once, and posts nothing else. *)
Theorem limiter_forwards_in_order w reqs s :
  counting s → in_second w reqs → w = oldwalltime s →
  (alarms reqs s).2 `sublist_of` ((λ r, curlmsg r.1.2 r.2) <$> reqs).
Proof.
  intros Hc Hin Hw.
  pose proof (run_same_accounts w reqs s Hin Hw Hc) as H.
  destruct (alarms reqs s) as [s1 p]. apply H.
Qed.

Lemma limiter_forwards_in_order_witness :
  counting initial ∧ in_second 0 [(0, 40, "a"); (0, 21, "b"); (0, 40, "c")]
  ∧ (alarms [(0, 40, "a"); (0, 21, "b"); (0, 40, "c")] initial).2
    `sublist_of` [curlmsg 40 "a"; curlmsg 21 "b"; curlmsg 40 "c"].
Proof.
  assert (counting initial) as Hc
    by (repeat split; repeat constructor; lia).
  assert (in_second 0 [(0, 40, "a"); (0, 21, "b"); (0, 40, "c")]) as Hin
    by (repeat constructor).
  split; [exact Hc|]. split; [exact Hin|].
  exact (limiter_forwards_in_order 0 _ initial Hc Hin eq_refl).
Defined.

End AlarmAccounting.

(* ===================================================================== *)
(** * The clocks *)
(* ===================================================================== *)

Module ClockFacts.
Import Stonehenge.

Lemma u64_wrap z r k : 0 ≤ r < 2 ^ 64 → z = r + k * 2 ^ 64 → u64 z = r.
Proof.
  intros Hr ->. unfold u64. rewrite Z.mod_add by lia. by apply Z.mod_small.
Qed.

Lemma to_int_small z : - 2 ^ 31 ≤ z < 2 ^ 31 → to_int z = z.
Proof. intros. unfold to_int. rewrite Z.mod_small by lia. lia. Qed.

Lemma to_int_wrap z r k :
  - 2 ^ 31 ≤ r < 2 ^ 31 → z = r + k * 2 ^ 32 → to_int z = r.
Proof.
  intros Hr ->. unfold to_int.
  replace (r + k * 2 ^ 32 + 2 ^ 31) with (r + 2 ^ 31 + k * 2 ^ 32) by lia.
  rewrite Z.mod_add by lia. rewrite Z.mod_small by lia. lia.
Qed.

(** A reading at or after the last good time meets the second test of
    [IsConsistent] alone, with no wrap in its subtraction. *)
Lemma IsConsistent_forward newat standard dd :
  0 ≤ time50 standard ≤ time50 newat → time50 newat < 2 ^ 64 →
  IsConsistent newat standard dd
  = if decide (time50 newat - time50 standard > maxjump)
    then (false, newat, [Alarm 30 msg_gap 0; Stderr msg_gap])
    else (true, newat, []).
Proof.
  intros Hs Hn. unfold IsConsistent, jump_check.
  rewrite decide_False by lia.
  by rewrite (u64_wrap _ (time50 newat - time50 standard) 0) by lia.
Qed.

(** X5.  For readings of the 43-bit clock [IsConsistent] accepts exactly
    the readings from the last good time up to [maxjump] ticks ahead of
    it; an accepted reading is left as it is and nothing is reported. *)
Theorem IsConsistent_window newat standard dd :
  0 ≤ time50 newat < 2 ^ 43 → 0 ≤ time50 standard < 2 ^ 43 →
  (IsConsistent newat standard dd).1.1
  = bool_decide (time50 standard ≤ time50 newat ≤ time50 standard + maxjump)
  ∧ ((IsConsistent newat standard dd).1.1 = true →
     IsConsistent newat standard dd = (true, newat, [])).
Proof.
  intros Hn Hs.
  destruct (decide (time50 newat < time50 standard)) as [Hlt|Hge].
  - rewrite ClockReconciler.IsConsistent_backward by lia.
    rewrite bool_decide_false by lia. done.
  - rewrite IsConsistent_forward by lia.
    case_decide; simpl.
    + rewrite bool_decide_false by lia. done.
    + rewrite bool_decide_true by lia. done.
Qed.

Lemma IsConsistent_window_witness :
  0 ≤ time50 (reading back500 good1000) < 2 ^ 43
  ∧ 0 ≤ time50 good1000 < 2 ^ 43
  ∧ (IsConsistent (reading back500 good1000) good1000 0).1.1 = false.
Proof.
  assert (0 ≤ time50 (reading back500 good1000) < 2 ^ 43) as H1
    by (simpl; lia).
  assert (0 ≤ time50 good1000 < 2 ^ 43) as H2 by (simpl; lia).
  split; [exact H1|]. split; [exact H2|].
  rewrite (proj1 (IsConsistent_window (reading back500 good1000) good1000 0
                    H1 H2)).
  reflexivity.
Defined.


(** The steps of [well_ordered] touch neither the retrigger flags nor the
    statistics nor the configuration. *)
Lemma well_ordered_frame newat dd c :
  retrig (well_ordered newat dd c).1.2 = retrig c
  ∧ passretrig (well_ordered newat dd c).1.2 = passretrig c
  ∧ stat (well_ordered newat dd c).1.2 = stat c
  ∧ config (well_ordered newat dd c).1.2 = config c.
Proof.
  unfold well_ordered.
  destruct (IsConsistent newat (standard c) dd) as [[ok n1] eff].
  destruct ok; [done|]. by destruct (problem c).
Qed.

(** The last good time [well_ordered] leaves agrees with the time it
    returns. *)
Lemma well_ordered_synced newat dd c :
  synced (well_ordered newat dd c).1.1 (well_ordered newat dd c).1.2.
Proof.
  unfold well_ordered, synced.
  destruct (IsConsistent newat (standard c) dd) as [[ok n1] eff].
  destruct ok; [done|]. by destruct (problem c).
Qed.

(** X6.  An accepted reading of a later record advances the clock: the
    50MHz tick is the reading, the epoch is kept, the long time is the
    tick plus 2^43 per epoch, the reading becomes the last good time and a
    pending fault is cleared.  If the last good time had that form too,
    the long time moves forward by the distance of the two readings, at
    most [maxjump]. *)
Theorem accepted_advances hits oldat count c :
  eventn count ≠ 1 →
  0 < hit_time50 hits < 2 ^ 43 → 0 ≤ time50 (standard c) < 2 ^ 43 →
  0 ≤ epoch oldat < 2 ^ 20 →
  ¬ rejected hits oldat c →
  let '(newat, c1, eff) := compute_times hits oldat count c in
  time50 newat = hit_time50 hits ∧ time10 newat = hit_time10 hits
  ∧ epoch newat = epoch oldat
  ∧ longtime newat = hit_time50 hits + maxtime * epoch oldat
  ∧ standard c1 = newat ∧ problem c1 = false
  ∧ (epoch (standard c) = epoch oldat →
     longtime (standard c) = time50 (standard c) + maxtime * epoch oldat →
     longtime (standard c) ≤ longtime newat ≤ longtime (standard c) + maxjump).
Proof.
  intros Hn Ht Hs He Hacc.
  rewrite ClockReconciler.compute_times_later by lia. cbv zeta.
  unfold rejected in Hacc. unfold well_ordered.
  set (c1 := if decide _ then set_retrig true c else _).
  assert (standard c1 = standard c) as Hstd by (subst c1; by case_decide).
  rewrite Hstd.
  assert (0 ≤ time50 (reading hits oldat) < 2 ^ 43) as Hr
    by (destruct oldat; simpl; lia).
  assert (time50 (reading hits oldat) = hit_time50 hits) as H50
    by (by destruct oldat).
  destruct (decide (time50 (reading hits oldat) < time50 (standard c)))
    as [Hlt|Hge];
    [by rewrite ClockReconciler.IsConsistent_backward in Hacc by lia|].
  rewrite IsConsistent_forward in Hacc |- * by lia.
  destruct (decide (time50 (reading hits oldat) - time50 (standard c) > maxjump))
    as [Hgap|Hw]; [done|].
  rewrite H50 in Hw, Hge.
  assert (u64 (hit_time50 hits + u64 (maxtime * epoch oldat))
          = hit_time50 hits + maxtime * epoch oldat) as Hlong.
  { unfold maxtime in *. change (Z.shiftl 1 43) with (2 ^ 43).
    rewrite (u64_wrap (2 ^ 43 * epoch oldat) (2 ^ 43 * epoch oldat) 0) by lia.
    apply (u64_wrap _ _ 0); lia. }
  destruct oldat as [t10 t50 lt ep wt owt ex]; simpl in *.
  rewrite Hlong. repeat split; try done; lia.
Qed.

Lemma accepted_advances_witness :
  ¬ rejected (mkHitinfo 1200 240 0 0 0 0 0) good1000 clock1000
  ∧ longtime (compute_times (mkHitinfo 1200 240 0 0 0 0 0) good1000 fifth
                clock1000).1.1 = 1200.
Proof.
  assert (¬ rejected (mkHitinfo 1200 240 0 0 0 0 0) good1000 clock1000) as Hacc
    by (vm_compute; discriminate).
  split; [exact Hacc|].
  pose proof (accepted_advances (mkHitinfo 1200 240 0 0 0 0 0) good1000 fifth
                clock1000) as H.
  destruct (compute_times (mkHitinfo 1200 240 0 0 0 0 0) good1000 fifth clock1000)
    as [[newat c1] eff].
  destruct H as (_ & _ & _ & Hl & _);
    [simpl; lia | simpl; lia | simpl; lia | simpl; lia | exact Hacc |].
  cbn [fst]. rewrite Hl. reflexivity.
Defined.

(** The time [compute_times] returns agrees with the last good time it
    leaves, provided the two agreed before. *)
Lemma compute_times_synced hits oldat count c :
  synced oldat c →
  synced (compute_times hits oldat count c).1.1
         (compute_times hits oldat count c).1.2.
Proof.
  intros Hs. unfold compute_times, first_event, later_event.
  case_decide; [by case_decide|].
  set (c1 := if decide (is_retrigger _ _ _) then set_retrig true c else _).
  assert (standard c1 = standard c) as Hstd by (subst c1; by case_decide).
  case_decide.
  - simpl. unfold synced in *. simpl. rewrite Hstd. by destruct oldat.
  - pose proof (well_ordered_synced (reading hits oldat)
                  (drift oldat (reading hits oldat)) c1) as Hwo.
    destruct (well_ordered _ _ c1) as [[n1 c2] e2]. done.
Qed.

(** X7.  [compute_times] counts an orphan for exactly the records whose
    50MHz reading is zero, the first record included, and on no other
    occasion. *)
Theorem orphans_are_zero_readings hits oldat count c :
  orphan (stat (compute_times hits oldat count c).1.2)
  = orphan (stat c) + (if decide (hit_time50 hits = 0) then 1 else 0)
  ∧ l1 (stat (compute_times hits oldat count c).1.2) = l1 (stat c)
  ∧ l2 (stat (compute_times hits oldat count c).1.2) = l2 (stat c)
  ∧ burstbool (stat (compute_times hits oldat count c).1.2) = burstbool (stat c).
Proof.
  assert (time50 (reading hits oldat) = hit_time50 hits) as H50
    by (by destruct oldat).
  unfold compute_times, first_event, later_event. rewrite H50.
  case_decide.
  - case_decide; simpl; repeat split; lia.
  - set (c1 := if decide (is_retrigger _ _ _) then set_retrig true c else _).
    assert (stat c1 = stat c) as Hst by (subst c1; by case_decide).
    case_decide.
    + simpl. rewrite Hst. repeat split; lia.
    + pose proof (well_ordered_frame (reading hits oldat)
                    (drift oldat (reading hits oldat)) c1) as (_ & _ & Hf & _).
      destruct (well_ordered _ _ c1) as [[n1 c2] e2]. simpl in *.
      rewrite Hf, Hst. repeat split; lia.
Qed.

(** X8.  For a later record the retrigger flag is set exactly when the
    50MHz reading lies after the previous one and within the retrigger
    window of it; when it is not set the pass-retrigger latch is cleared,
    and when it is set the latch is left alone. *)
Theorem retrigger_window hits oldat count c :
  eventn count ≠ 1 →
  0 ≤ hit_time50 hits < 2 ^ 43 → 0 ≤ time50 oldat < 2 ^ 43 →
  0 ≤ retrigwindow (config c) < 2 ^ 63 →
  let c1 := (compute_times hits oldat count c).1.2 in
  retrig c1
  = bool_decide (time50 oldat < hit_time50 hits
                 ≤ time50 oldat + retrigwindow (config c))
  ∧ (retrig c1 = false → passretrig c1 = false)
  ∧ (retrig c1 = true → passretrig c1 = passretrig c).
Proof.
  intros Hn Hh Ho Hw.
  assert (is_retrigger (config c) oldat (reading hits oldat)
          ↔ time50 oldat < hit_time50 hits
            ≤ time50 oldat + retrigwindow (config c)) as Hiff.
  { unfold is_retrigger.
    replace (time50 (reading hits oldat)) with (hit_time50 hits)
      by (by destruct oldat).
    rewrite (u64_wrap (retrigwindow (config c)) (retrigwindow (config c)) 0)
      by lia.
    destruct (decide (time50 oldat ≤ hit_time50 hits)) as [Hle|Hgt].
    - rewrite (u64_wrap _ (hit_time50 hits - time50 oldat) 0) by lia. lia.
    - rewrite (u64_wrap _ (hit_time50 hits - time50 oldat + 2 ^ 64) (-1))
        by lia.
      lia. }
  unfold compute_times, later_event. rewrite decide_False by done.
  cbv zeta.
  set (c1 := if decide _ then set_retrig true c else _).
  assert (retrig c1 = bool_decide (time50 oldat < hit_time50 hits
                         ≤ time50 oldat + retrigwindow (config c))
          ∧ (retrig c1 = false → passretrig c1 = false)
          ∧ (retrig c1 = true → passretrig c1 = passretrig c)) as Hc1.
  { subst c1. case_decide as Hr; simpl.
    - rewrite bool_decide_true by (by apply Hiff). done.
    - rewrite bool_decide_false by (by rewrite <- Hiff). done. }
  destruct (decide (time50 (reading hits oldat) = 0)); [done|].
  pose proof (well_ordered_frame (reading hits oldat)
                (drift oldat (reading hits oldat)) c1) as (Hr & Hp & _).
  destruct (well_ordered _ _ c1) as [[n1 c2] e2]. simpl in *.
  by rewrite Hr, Hp.
Qed.

Lemma retrigger_window_witness :
  retrig (compute_times (mkHitinfo 1020 204 0 0 0 0 0) good1000 fifth
            clock1000).1.2 = true.
Proof.
  exact (proj1 (retrigger_window (mkHitinfo 1020 204 0 0 0 0 0) good1000 fifth
                  clock1000 ltac:(simpl; lia) ltac:(simpl; lia)
                  ltac:(simpl; lia) ltac:(simpl; lia))).
Defined.

(** X9.  When both clocks have moved forward, the drift is the absolute
    difference between the 50MHz advance and five times the 10MHz
    advance. *)
Theorem drift_is_distance oldat newat :
  0 ≤ time10 oldat < time10 newat → time10 newat < 2 ^ 53 →
  0 ≤ time50 oldat < time50 newat → time50 newat < 2 ^ 43 →
  Z.abs (5 * (time10 newat - time10 oldat) - (time50 newat - time50 oldat))
    < 2 ^ 31 →
  drift oldat newat
  = Z.abs (5 * (time10 newat - time10 oldat) - (time50 newat - time50 oldat)).
Proof.
  intros H10 H10b H50 H50b Hsmall. unfold drift.
  rewrite (u64_wrap (time10 oldat - time10 newat)
             (time10 oldat - time10 newat + 2 ^ 64) (-1)) by lia.
  rewrite (u64_wrap ((time10 oldat - time10 newat + 2 ^ 64) * 5)
             (5 * (time10 oldat - time10 newat) + 2 ^ 64) 4) by lia.
  rewrite (u64_wrap (time50 oldat - time50 newat)
             (time50 oldat - time50 newat + 2 ^ 64) (-1)) by lia.
  case_decide.
  - rewrite (u64_wrap _ (5 * (time10 oldat - time10 newat)
                         - (time50 oldat - time50 newat)) 0) by lia.
    rewrite to_int_small by lia. lia.
  - rewrite (u64_wrap _ ((time50 oldat - time50 newat)
                         - 5 * (time10 oldat - time10 newat)) 0) by lia.
    rewrite to_int_small by lia. lia.
Qed.

Lemma drift_is_distance_witness :
  drift good1000 (reading (mkHitinfo 1200 240 0 0 0 0 0) good1000) = 0.
Proof.
  rewrite drift_is_distance by (simpl; lia). reflexivity.
Defined.

(** X10.  When the 10MHz value repeats while the 50MHz clock has moved
    forward, the drift comes out as minus the 50MHz advance: the unsigned
    differences are not of the same sign, so it is never above
    [maxdrift] and the drift alarm is not raised, whatever the advance. *)
Theorem drift_of_repeated_time10 oldat newat :
  time10 newat = time10 oldat →
  0 ≤ time50 oldat < time50 newat → time50 newat < 2 ^ 43 →
  time50 newat - time50 oldat ≤ 2 ^ 31 →
  drift oldat newat = - (time50 newat - time50 oldat)
  ∧ ¬ drift oldat newat > maxdrift.
Proof.
  intros H10 H50 H50b Hsmall.
  assert (drift oldat newat = - (time50 newat - time50 oldat)) as Hd.
  { unfold drift. rewrite H10, Z.sub_diag.
    change (u64 (u64 0 * 5)) with 0.
    rewrite (u64_wrap (time50 oldat - time50 newat)
               (time50 oldat - time50 newat + 2 ^ 64) (-1)) by lia.
    rewrite decide_False by lia.
    rewrite (u64_wrap _ (time50 oldat - time50 newat + 2 ^ 64) 0) by lia.
    apply (to_int_wrap _ _ (2 ^ 32)); lia. }
  split; [done|]. rewrite Hd. unfold maxdrift. lia.
Qed.

Lemma drift_of_repeated_time10_witness :
  drift good1000 (set_time50 900000 good1000) = -899000.
Proof.
  exact (proj1 (drift_of_repeated_time10 good1000 (set_time50 900000 good1000)
                  eq_refl ltac:(simpl; lia) ltac:(simpl; lia)
                  ltac:(simpl; lia))).
Defined.

End ClockFacts.

(* ===================================================================== *)
(** * The controller and the buckets *)
(* ===================================================================== *)

Module ControllerFacts.
Import Stonehenge.

(** X11.  The cut is never lowered without cause: in a run that starts
    with the high cut and holds no record above [lothresh], every record
    is filtered with the high cut, whatever the times and the expiry
    tick. *)
Theorem idle_run_keeps_high_cut cfg recs : ∀ alltime,
  idle cfg recs →
  cuts cfg recs alltime (nhithi cfg) = (λ _, nhithi cfg) <$> recs.
Proof.
  induction recs as [|[n t] recs IH]; intros alltime Hid; [done|].
  inversion_clear Hid as [|? ? Hn Hrest]. simpl in Hn.
  cbn [cuts]. rewrite Threshold.setthreshold_idle by done.
  assert ((if decide (longtime (set_longtime t alltime)
                      > exptime (set_longtime t alltime))
           then nhithi cfg else nhithi cfg) = nhithi cfg) as ->
    by (by case_decide).
  rewrite fmap_cons. f_equal. by apply IH.
Qed.

Lemma idle_run_keeps_high_cut_witness :
  idle cfg0 quiet ∧ cuts cfg0 quiet tick500 30 = [30; 30; 30; 30].
Proof.
  assert (idle cfg0 quiet) as Hid by (repeat constructor; simpl; lia).
  split; [exact Hid|].
  exact (idle_run_keeps_high_cut cfg0 quiet tick500 Hid).
Defined.

(** X13.  Two updates of the wall clock in a row: the time state then
    holds the second of the last update and, as the previous one, the
    second of the update before; the two differ exactly when the second
    has changed, and the second that has just ended is the one the
    statistics are written under. *)
Theorem updatetime_twice now1 now2 alltime :
  now1 ≠ 0 →
  let a := updatetime now2 (updatetime now1 alltime) in
  walltime a = now2 ∧ oldwalltime a = now1
  ∧ (walltime a ≠ oldwalltime a ↔ now2 ≠ now1)
  ∧ time50 a = time50 alltime ∧ time10 a = time10 alltime
  ∧ longtime a = longtime alltime ∧ epoch a = epoch alltime
  ∧ exptime a = exptime alltime.
Proof.
  intros Hn. unfold updatetime.
  destruct alltime as [t10 t50 lt ep wt owt ex]; simpl.
  destruct (decide (wt ≠ 0)); simpl; rewrite decide_True by done; simpl;
    repeat split; done.
Qed.

Lemma updatetime_twice_witness :
  oldwalltime (updatetime 1700000001 (updatetime 1700000000 time0))
  = 1700000000.
Proof.
  exact (proj1 (proj2 (updatetime_twice 1700000000 1700000001 time0
                         ltac:(lia)))).
Defined.

(** A bucket incremented: the total goes up by one. *)
Lemma bucket_total_insert (stats : list Z) (k : nat) :
  (k < length stats)%nat →
  bucket_total (<[k := stats !!! k + 1]> stats) = bucket_total stats + 1.
Proof.
  revert k. induction stats as [|x stats IH]; intros k Hk; simpl in *; [lia|].
  destruct k as [|k]; simpl; [lia|].
  rewrite IH by lia. lia.
Qed.

(** X14.  Every call of [l2filter] adds exactly one to the total of the
    eight buckets and leaves the array eight long. *)
Theorem l2filter_counts_one nhit word passretrig retrig (stats : list Z) cut cfg :
  length stats = 8%nat →
  bucket_total (l2filter nhit word passretrig retrig stats cut cfg).2
  = bucket_total stats + 1
  ∧ length (l2filter nhit word passretrig retrig stats cut cfg).2 = 8%nat.
Proof.
  intros Hlen.
  rewrite Filter.l2filter_stats by done. cbv zeta.
  pose proof (Filter.l2key_range nhit word passretrig retrig cut cfg).
  rewrite bucket_total_insert by lia. by rewrite length_insert.
Qed.

Lemma l2filter_counts_one_witness :
  bucket_total (l2filter 35 6 true false [4; 0; 0; 7; 0; 0; 0; 1] 30 cfg_mask).2
  = 13.
Proof.
  rewrite (proj1 (l2filter_counts_one 35 6 true false [4; 0; 0; 7; 0; 0; 0; 1]
                    30 cfg_mask eq_refl)).
  reflexivity.
Defined.

End ControllerFacts.

(* ===================================================================== *)
(** * The decoder on whole records *)
(* ===================================================================== *)

Module DecoderFacts.
Import Stonehenge.

(** Swapping one word is an update in place. *)
Lemma SWAP_INT32_one buf p h :
  buf !! p = Some h → SWAP_INT32 buf p 1 = Some (<[p := swap_word h]> buf).
Proof.
  intros Hh.
  assert (p < length buf)%nat as Hp by (by eapply lookup_lt_Some).
  unfold SWAP_INT32. rewrite decide_True by lia. f_equal.
  rewrite (drop_S _ _ _ Hh). cbn [take fmap list_fmap app].
  rewrite insert_take_drop by done. by rewrite Nat.add_1_r.
Qed.

(** A header with the more-follow flag and a zero word count: a turn of
    the loop leaves everything as it was. *)
Lemma zero_jump_walk fuel : ∀ buf sub_header event_size h,
  buf !! sub_header = Some h → 0 ≤ h < 2 ^ 32 →
  Z.land h SUB_NOT_LAST ≠ 0 → Z.land h SUB_LENGTH_MASK = 0 →
  sub_walk fuel buf sub_header event_size = WalkDiverges.
Proof.
  induction fuel as [|fuel IH]; intros buf sub es h Hh Hr Hflag Hlen; [done|].
  cbn [sub_walk]. rewrite Hh. rewrite decide_True by done.
  rewrite Hlen. rewrite decide_False by (by vm_compute).
  assert (sub < length buf)%nat as Hsub by (by eapply lookup_lt_Some).
  assert (hop buf sub 0 = Some (buf, sub, 0)) as ->.
  { unfold hop. rewrite (SWAP_INT32_one buf sub h Hh). cbn [mbind option_bind].
    change (Z.to_nat 0) with 0%nat. rewrite Nat.add_0_r.
    rewrite (SWAP_INT32_one _ sub (swap_word h))
      by (by apply list_lookup_insert_eq).
    cbn [mbind option_bind].
    rewrite Decoder.swap_word_involutive by done.
    rewrite list_insert_insert_eq, (list_insert_id _ _ _ Hh).
    unfold word. rewrite (list_lookup_total_correct _ _ _ Hh), Hlen.
    change (Z.to_nat 0) with 0%nat.
    by rewrite Decoder.SWAP_INT32_none by lia. }
  by eapply IH.
Qed.

(** X15.  A hit record whose first sub-record header has the more-follow
    flag and a zero word count hangs the decoder: every turn of the walk
    swaps the header there and back and tests it again, so [ReadHits]
    does not return, whatever the number of turns allowed. *)
Theorem zero_jump_never_ends fuel zrec hit buf h :
  bank_name zrec = ZDAB_RECORD → SWAP_PMT_RECORD (data zrec) = Some buf →
  NPmtHit buf ≤ MAX_NHIT →
  buf !! CalPckType = Some h → 0 ≤ h < 2 ^ 32 →
  Z.land h SUB_NOT_LAST ≠ 0 → Z.land h SUB_LENGTH_MASK = 0 →
  ReadHits fuel zrec hit = Diverges.
Proof.
  intros Hb Hs Hn Hh Hr Hflag Hlen. unfold ReadHits.
  rewrite decide_False by (intros ?; done). rewrite Hs. cbn [nhit set_nhit].
  rewrite decide_False by lia.
  by rewrite (zero_jump_walk fuel buf CalPckType _ h).
Qed.

Lemma zero_jump_never_ends_witness :
  SWAP_PMT_RECORD (data (hit_record 0 SUB_NOT_LAST [])) = Some stuck
  ∧ stuck !! CalPckType = Some SUB_NOT_LAST
  ∧ ReadHits 1000 (hit_record 0 SUB_NOT_LAST []) hit0 = Diverges.
Proof.
  split; [reflexivity|]. split; [reflexivity|].
  exact (zero_jump_never_ends 1000 (hit_record 0 SUB_NOT_LAST []) hit0 stuck
           SUB_NOT_LAST eq_refl eq_refl ltac:(by vm_compute) eq_refl
           ltac:(by vm_compute) ltac:(by vm_compute) eq_refl).
Defined.

(** The walk leaves the hit count alone. *)
Lemma ReadHits_cases fuel zrec hit ret zrec1 hit1 eff :
  ReadHits fuel zrec hit = Returned ret zrec1 hit1 eff →
  (ret = 1 ∧ zrec1 = zrec ∧ hit1 = hit ∧ eff = []
   ∧ bank_name zrec ≠ ZDAB_RECORD)
  ∨ (∃ buf, SWAP_PMT_RECORD (data zrec) = Some buf
       ∧ bank_name zrec = ZDAB_RECORD ∧ bank_name zrec1 = ZDAB_RECORD
       ∧ nhit hit1 = NPmtHit buf
       ∧ ((ret = 1 ∧ NPmtHit buf > MAX_NHIT ∧ hit1 = set_nhit (NPmtHit buf) hit
           ∧ Alarm 30 msg_toomany 0 ∈ eff)
          ∨ (ret = 0 ∧ NPmtHit buf ≤ MAX_NHIT))).
Proof.
  unfold ReadHits. case_decide as Hb.
  { intros [= <- <- <- <-]. left. done. }
  assert (bank_name zrec = ZDAB_RECORD) as Hbank
    by (destruct (decide (bank_name zrec = ZDAB_RECORD)); tauto).
  destruct (SWAP_PMT_RECORD (data zrec)) as [buf|] eqn:Hs; [|done].
  cbn [nhit set_nhit].
  case_decide as Hn.
  { intros [= <- <- <- <-]. right. exists buf. simpl.
    repeat split; try done.
    left. repeat split; try done. rewrite !elem_of_cons. auto. }
  destruct (sub_walk _ _ _ _) as [b es|b| |]; try done.
  - destruct (restore _ _) as [b1|]; [|done].
    intros [= <- <- <- <-]. right. exists buf. simpl.
    repeat split; try done. right. split; [done|lia].
  - intros [= <- <- <- <-]. right. exists buf. simpl.
    repeat split; try done. right. split; [done|lia].
Qed.

(** X16.  [ReadHits] returns 0 or 1, and whenever it returns 0, so that
    the record is processed as an event, the hit count it has stored is
    between 0 and 10240. *)
Theorem ReadHits_bounds_nhit fuel zrec hit ret zrec1 hit1 eff :
  ReadHits fuel zrec hit = Returned ret zrec1 hit1 eff →
  (ret = 0 ∨ ret = 1) ∧ (ret = 0 → 0 ≤ nhit hit1 ≤ MAX_NHIT).
Proof.
  intros H. apply ReadHits_cases in H as [(-> & _)|(buf & _ & _ & _ & Hn & H)].
  - split; [by right|]. done.
  - rewrite Hn.
    assert (0 ≤ NPmtHit buf) by (unfold NPmtHit; apply Z.land_nonneg; lia).
    destruct H as [(-> & _)|(-> & ?)].
    + split; [by right|]. done.
    + split; [by left|]. lia.
Qed.

Lemma ReadHits_bounds_nhit_witness :
  ReadHits 1 escaping hit0
  = Returned 0 (mkNZDAB ZDAB_RECORD (host_order 0 (SUB_NOT_LAST + 0x100001)))
             hit0 [Stderr msg_jump]
  ∧ 0 ≤ nhit hit0 ≤ MAX_NHIT.
Proof.
  split; [reflexivity|].
  exact (proj2 (ReadHits_bounds_nhit 1 escaping hit0 0 _ hit0 _ eq_refl) eq_refl).
Defined.

(** X17.  The fields [ReadHits] decodes stay in their ranges for a buffer
    of 32-bit words: the 50MHz time below 2^43, the 10MHz time below
    2^53, the trigger word below 2^26 and the event id below 2^24. *)
Theorem read_fields_ranges buf hit :
  words buf →
  0 ≤ hit_time50 (read_fields buf hit) < 2 ^ 43
  ∧ 0 ≤ hit_time10 (read_fields buf hit) < 2 ^ 53
  ∧ 0 ≤ triggertype (read_fields buf hit) < 2 ^ 26
  ∧ 0 ≤ hit_gtid (read_fields buf hit) < 2 ^ 24.
Proof.
  intros Hw.
  assert (∀ i, 0 ≤ word buf i < 2 ^ 32) as Hword.
  { intros i. unfold word, words in *.
    destruct (buf !! i) as [w|] eqn:Hi.
    - rewrite (list_lookup_total_correct _ _ _ Hi).
      rewrite Forall_lookup in Hw. by apply (Hw i).
    - rewrite list_lookup_total_alt, Hi. simpl. lia. }
  assert (∀ w m k, 0 ≤ w → m = Z.ones k → 0 ≤ k → 0 ≤ Z.land w m < 2 ^ k)
    as Hmask.
  { intros w m k Hw0 -> Hk. rewrite Z.land_ones by done.
    apply Z.mod_pos_bound. lia. }
  unfold read_fields; cbn [hit_time50 hit_time10 triggertype hit_gtid].
  unfold Bc50_2, Bc50_1, Bc10_2, Bc10_1, BcGT, mtcwords.
  pose proof (Hword (5 + 0)%nat) as H0. pose proof (Hword (5 + 1)%nat) as H1.
  pose proof (Hword (5 + 2)%nat) as H2. pose proof (Hword (5 + 3)%nat) as H3.
  pose proof (Hword (5 + 4)%nat) as H4.
  split; [|split; [|split]].
  - rewrite Z.shiftl_mul_pow2, Z.shiftr_div_pow2 by lia.
    assert (0 ≤ word buf (5 + 1) / 2 ^ 21 < 2 ^ 11)
      by (split; [apply Z.div_pos; lia | apply Z.div_lt_upper_bound; lia]).
    unfold u64. rewrite Z.mod_small by lia. lia.
  - rewrite Z.shiftl_mul_pow2 by lia.
    pose proof (Hmask (word buf (5 + 1)) 0x1fffff 21 ltac:(lia) eq_refl
                  ltac:(lia)).
    unfold u64. rewrite Z.mod_small by lia. lia.
  - assert (0 ≤ Z.shiftr (Z.land (word buf (5 + 3)) 0xff000000) 24 < 2 ^ 8) as Ha.
    { rewrite Z.shiftr_land. change (Z.shiftr 0xff000000 24) with (Z.ones 8).
      apply Hmask; [apply Z.shiftr_nonneg; lia | done | lia]. }
    pose proof (Hmask (word buf (5 + 4)) 0x3ffff 18 ltac:(lia) eq_refl
                  ltac:(lia)) as Hb.
    assert (0 ≤ u32 (Z.shiftl (Z.land (word buf (5 + 4)) 0x3ffff) 8) < 2 ^ 26)
      as Hc.
    { rewrite Z.shiftl_mul_pow2 by lia. unfold u32.
      rewrite Z.mod_small by lia. lia. }
    split; [apply Z.lor_nonneg; lia|].
    apply Z.log2_lt_cancel. rewrite Z.log2_pow2 by lia.
    destruct (decide (Z.lor (Z.shiftr (Z.land (word buf (5 + 3)) 0xff000000) 24)
                 (u32 (Z.shiftl (Z.land (word buf (5 + 4)) 0x3ffff) 8)) = 0))
      as [->|Hnz]; [simpl; lia|].
    rewrite Z.log2_lor by lia.
    apply Z.max_lub_lt.
    + destruct (decide (Z.shiftr (Z.land (word buf (5 + 3)) 0xff000000) 24 = 0))
        as [->|]; [simpl; lia|].
      apply Z.log2_lt_pow2; lia.
    + destruct (decide (u32 (Z.shiftl (Z.land (word buf (5 + 4)) 0x3ffff) 8) = 0))
        as [->|]; [simpl; lia|].
      apply Z.log2_lt_pow2; lia.
  - apply (Hmask _ 0xffffff 24); (lia || reflexivity).
Qed.

Lemma read_fields_ranges_witness :
  words (host_order 0 0) ∧ hit_time50 (read_fields (host_order 0 0) hit0) < 2 ^ 43.
Proof.
  assert (words (host_order 0 0)) as Hw
    by (unfold words; simpl; repeat constructor; by vm_compute).
  split; [exact Hw|].
  exact (proj2 (proj1 (read_fields_ranges (host_order 0 0) hit0 Hw))).
Defined.

(** X18.  A hit record without sub-records: [ReadHits] returns 0, the
    record length it reports is 20 words plus three per hit, and the
    buffer it leaves is the one it was given with the three words of every
    hit byte-swapped and the [PmtEventRecord] as it came. *)
Theorem plain_hit_record fuel zrec hit buf :
  bank_name zrec = ZDAB_RECORD → words (data zrec) →
  SWAP_PMT_RECORD (data zrec) = Some buf →
  NPmtHit buf ≤ MAX_NHIT →
  Z.land (word buf CalPckType) SUB_NOT_LAST = 0 →
  (11 + Z.to_nat (3 * NPmtHit buf) ≤ length (data zrec))%nat →
  fuel ≠ 0%nat →
  ∃ buf1,
    ReadHits fuel zrec hit
    = Returned 0 (mkNZDAB (bank_name zrec) buf1)
               (set_reclen (20 + 3 * NPmtHit buf)
                  (read_fields buf (set_nhit (NPmtHit buf) hit))) []
    ∧ SWAP_INT32 (data zrec) 11 (Z.to_nat (3 * NPmtHit buf)) = Some buf1
    ∧ take 11 buf1 = take 11 (data zrec).
Proof.
  intros Hb Hw Hs Hn Hlast Hlen Hfuel.
  assert (0 ≤ NPmtHit buf) as H0 by (unfold NPmtHit; apply Z.land_nonneg; lia).
  unfold MAX_NHIT in Hn.
  destruct (SWAP_INT32 (data zrec) 11 (Z.to_nat (3 * NPmtHit buf)))
    as [buf1|] eqn:Hswap;
    [|unfold SWAP_INT32 in Hswap; by rewrite decide_True in Hswap by lia].
  exists buf1. split; [|split; [done|]].
  - unfold ReadHits.
    rewrite decide_False by (intros ?; done). rewrite Hs. cbn [nhit set_nhit].
    rewrite decide_False by (unfold MAX_NHIT; lia).
    destruct fuel as [|fuel]; [done|]. cbn [sub_walk].
    pose proof (Decoder.SWAP_INT32_length _ _ _ _ Hs) as [Hl Hpmt].
    unfold PMT_WORDS in Hpmt.
    assert (buf !! CalPckType = Some (word buf CalPckType)) as ->.
    { apply list_lookup_lookup_total_lt. unfold CalPckType. lia. }
    rewrite decide_False by (intros ?; done).
    unfold restore. unfold SWAP_PMT_RECORD in *.
    rewrite (Decoder.SWAP_INT32_involutive _ _ _ _ Hw Hs).
    cbn [mbind option_bind nhit set_reclen read_fields set_nhit].
    unfold PMT_WORDS. rewrite Hswap.
    unfold u32. rewrite Z.mod_small by lia. done.
  - unfold SWAP_INT32 in Hswap. case_decide; [|done].
    injection Hswap as <-. rewrite take_app_length'; [done|].
    rewrite length_take. lia.
Qed.

Lemma plain_hit_record_witness :
  words (data one_hit)
  ∧ SWAP_PMT_RECORD (data one_hit) = Some (host_order 1 0 ++ [1; 2; 3])
  ∧ ∃ buf1 hit1, ReadHits 1 one_hit hit0 = Returned 0 (mkNZDAB ZDAB_RECORD buf1)
                                              hit1 []
      ∧ reclen hit1 = 23.
Proof.
  assert (words (data one_hit)) as Hw
    by (unfold words; simpl; repeat constructor; by vm_compute).
  split; [exact Hw|]. split; [reflexivity|].
  destruct (plain_hit_record 1 one_hit hit0 (host_order 1 0 ++ [1; 2; 3])
              eq_refl Hw eq_refl ltac:(by vm_compute) eq_refl
              ltac:(vm_compute; lia) ltac:(lia)) as (buf1 & H & _).
  exists buf1. eexists. split; [exact H|]. reflexivity.
Defined.

End DecoderFacts.

(* ===================================================================== *)
(** * The record loop *)
(* ===================================================================== *)

Module LoopFacts.
Import Stonehenge.

Lemma outzdabs_app e1 e2 : outzdabs (e1 ++ e2) = (outzdabs e1 + outzdabs e2)%nat.
Proof. unfold outzdabs. by rewrite List.filter_app, length_app. Qed.

Lemma burst_calls_app e1 e2 :
  burst_calls (e1 ++ e2) = (burst_calls e1 + burst_calls e2)%nat.
Proof. unfold burst_calls. by rewrite List.filter_app, length_app. Qed.

Lemma IsConsistent_quiet newat standard dd :
  outzdabs (IsConsistent newat standard dd).2 = 0%nat
  ∧ burst_calls (IsConsistent newat standard dd).2 = 0%nat.
Proof. unfold IsConsistent, jump_check. repeat case_decide; done. Qed.

(** [compute_times] writes no record out and does not feed the burst
    buffer; it leaves the configuration and, of the statistics, all but
    the orphan count. *)
Lemma compute_times_frame hits oldat count c :
  outzdabs (compute_times hits oldat count c).2 = 0%nat
  ∧ burst_calls (compute_times hits oldat count c).2 = 0%nat
  ∧ config (compute_times hits oldat count c).1.2 = config c
  ∧ l1 (stat (compute_times hits oldat count c).1.2) = l1 (stat c)
  ∧ l2 (stat (compute_times hits oldat count c).1.2) = l2 (stat c)
  ∧ burstbool (stat (compute_times hits oldat count c).1.2) = burstbool (stat c).
Proof.
  unfold compute_times, first_event, later_event, well_ordered.
  destruct (decide (eventn count = 1)); [by case_decide|].
  set (c1 := if decide (is_retrigger _ _ _) then set_retrig true c else _).
  assert (config c1 = config c ∧ stat c1 = stat c) as [Hc Hs]
    by (subst c1; by case_decide).
  set (e0 := if decide (_ > maxdrift) then _ else _).
  assert (outzdabs e0 = 0%nat ∧ burst_calls e0 = 0%nat) as [Ho Hb]
    by (subst e0; by case_decide).
  destruct (decide (time50 (reading hits oldat) = 0)).
  { simpl. rewrite Hc, Hs. done. }
  pose proof (IsConsistent_quiet (reading hits oldat) (standard c1)
                (drift oldat (reading hits oldat))) as [Ho1 Hb1].
  destruct (IsConsistent _ _ _) as [[ok n1] e1]. simpl in Ho1, Hb1.
  destruct ok; [|destruct (problem c1)]; simpl;
    rewrite ?outzdabs_app, ?burst_calls_app, Ho, Hb, Ho1, Hb1, Hc, Hs; done.
Qed.

Lemma ReadHits_quiet fuel zrec hit ret zrec1 hit1 eff :
  ReadHits fuel zrec hit = Returned ret zrec1 hit1 eff →
  outzdabs eff = 0%nat ∧ burst_calls eff = 0%nat.
Proof.
  unfold ReadHits. case_decide; [by intros [= <- <- <- <-]|].
  destruct (SWAP_PMT_RECORD _); [|done].
  case_decide; [by intros [= <- <- <- <-]|].
  destruct (sub_walk _ _ _ _); try done.
  - destruct (restore _ _); [|done]. by intros [= <- <- <- <-].
  - by intros [= <- <- <- <-].
Qed.

Lemma u64_succ_succ x a b : u64 (u64 (x + a) + b) = u64 (x + (a + b)).
Proof.
  unfold u64. rewrite Z.add_mod_idemp_l by lia. f_equal. lia.
Qed.

Lemma updatetime_times now a :
  time50 (updatetime now a) = time50 a ∧ epoch (updatetime now a) = epoch a
  ∧ longtime (updatetime now a) = longtime a.
Proof. unfold updatetime. destruct a. by case_decide. Qed.

Lemma setthreshold_times n a cfg cut :
  time50 (setthreshold n a cfg cut).1 = time50 a
  ∧ epoch (setthreshold n a cfg cut).1 = epoch a
  ∧ longtime (setthreshold n a cfg cut).1 = longtime a.
Proof. unfold setthreshold. destruct a. repeat case_decide; done. Qed.

Lemma filter_counts nhit word (stats : list Z) passretrig retrig cut cfg :
  length stats = 8%nat →
  length (l2filter nhit word passretrig retrig stats cut cfg).2 = 8%nat
  ∧ bucket_total (l2filter nhit word passretrig retrig stats cut cfg).2
    = bucket_total stats + 1.
Proof.
  intros Hlen. rewrite Filter.l2filter_stats by done. cbv zeta.
  pose proof (Filter.l2key_range nhit word passretrig retrig cut cfg).
  rewrite ControllerFacts.bucket_total_insert by lia.
  by rewrite length_insert.
Qed.

Section Loop.

Variable FillHeaderBuffer : nZDAB → Z.
Variable SetConfig : Z → configuration.
Variable yesredis : bool.

(** The two tests on the run type change the configuration and its flag
    and nothing else, and only when no configuration is known. *)
Lemma header_facts zrec s :
  let '(s1, eff) := header FillHeaderBuffer SetConfig zrec s in
  outzdabs eff = 0%nat ∧ burst_calls eff = 0%nat
  ∧ alltime s1 = alltime s ∧ hits s1 = hits s ∧ count s1 = count s
  ∧ stats s1 = stats s
  ∧ standard (clk s1) = standard (clk s) ∧ stat (clk s1) = stat (clk s)
  ∧ (configknown s = true → s1 = s)
  ∧ (configknown s1 = false → configknown s = false).
Proof.
  unfold header.
  destruct (decide (FillHeaderBuffer zrec ≠ 0 ∧ configknown s = false))
    as [[Hr Hk]|Hn].
  - cbn [configknown set_configknown]. rewrite decide_True by done.
    destruct s as [k a h n st c]; simpl in *. subst k.
    repeat split; done.
  - case_decide; simpl; repeat split; try done.
Qed.

(** What a record processed as an event does to the state of [main]. *)
Lemma event_facts now burst zrec s :
  let '(s1, eff) := event SetConfig yesredis now burst zrec s in
  count s1 = incr_eventn (count s) ∧ hits s1 = hits s ∧ configknown s1 = true
  ∧ (configknown s = true → config (clk s1) = config (clk s))
  ∧ (synced (alltime s) (clk s) → synced (alltime s1) (clk s1))
  ∧ l1 (stat (clk s1)) = l1 (stat (clk s))
  ∧ l2 (stat (clk s1)) = l2 (stat (clk s)) + Z.of_nat (outzdabs eff)
  ∧ (outzdabs eff ≤ 1)%nat
  ∧ (burstbool (stat (clk s)) = true → burstbool (stat (clk s1)) = true)
  ∧ (burst_calls eff = 0%nat ∨ burst_guard (hits s1) (config (clk s1)))
  ∧ (length (stats s) = 8%nat →
     length (stats s1) = 8%nat
     ∧ bucket_total (stats s1) = bucket_total (stats s) + 1).
Proof.
  unfold event.
  pose proof (compute_times_frame (hits s) (alltime s) (incr_eventn (count s))
                (clk s)) as (Ho1 & Hb1 & Hcfg & Hl1 & Hl2 & Hbb).
  pose proof (ClockFacts.compute_times_synced (hits s) (alltime s)
                (incr_eventn (count s)) (clk s)) as Hsyn.
  destruct (compute_times _ _ _ _) as [[at1 c1] e1]. simpl in *.
  pose proof (updatetime_times now at1) as (Ht & He & Hl).
  destruct (configknown s) eqn:Hk.
  - pose proof (setthreshold_times (u16 (nhit (hits s))) (updatetime now at1)
                  (config c1) (NHITCUT c1)) as (Ht3 & He3 & Hl3).
    destruct (setthreshold _ _ _ _) as [at3 cut]. simpl in *.
    pose proof (filter_counts (u16 (nhit (hits s))) (u32 (triggertype (hits s)))
                  (stats s)) as Hflt.
    destruct yesredis; repeat case_decide;
      match goal with
      | |- context [l2filter ?a ?b ?c ?d ?e ?f ?g] =>
          specialize (Hflt c d f g); destruct (l2filter a b c d e f g)
            as [[] stats1]
      end; simpl in *;
      rewrite ?outzdabs_app, ?burst_calls_app, ?Ho1, ?Hb1; simpl;
      (split; [done|]); (split; [done|]); (split; [done|]);
      (split; [intros Hk0; simpl; first [discriminate | congruence]|]);
      (split; [intros Hs; destruct (Hsyn Hs) as (? & ? & ?);
               unfold synced; simpl; lia|]);
      (split; [simpl; lia|]);
      (split; [unfold outzdabs; simpl; lia|]);
      (split; [unfold outzdabs; simpl; lia|]);
      (split; [intros Hb0; simpl; rewrite ?Hbb, ?Hb0; done|]);
      (split; [first [by left | right; unfold burst_guard; simpl; done]|]);
      exact Hflt.
  - pose proof (setthreshold_times (u16 (nhit (hits s))) (updatetime now at1)
                  (SetConfig 0) (NHITCUT c1)) as (Ht3 & He3 & Hl3).
    simpl in *.
    destruct (setthreshold _ _ _ _) as [at3 cut]. simpl in *.
    pose proof (filter_counts (u16 (nhit (hits s))) (u32 (triggertype (hits s)))
                  (stats s)) as Hflt.
    destruct yesredis; repeat case_decide;
      match goal with
      | |- context [l2filter ?a ?b ?c ?d ?e ?f ?g] =>
          specialize (Hflt c d f g); destruct (l2filter a b c d e f g)
            as [[] stats1]
      end; simpl in *;
      rewrite ?outzdabs_app, ?burst_calls_app, ?Ho1, ?Hb1; simpl;
      (split; [done|]); (split; [done|]); (split; [done|]);
      (split; [intros Hk0; simpl; first [discriminate | congruence]|]);
      (split; [intros Hs; destruct (Hsyn Hs) as (? & ? & ?);
               unfold synced; simpl; lia|]);
      (split; [simpl; lia|]);
      (split; [unfold outzdabs; simpl; lia|]);
      (split; [unfold outzdabs; simpl; lia|]);
      (split; [intros Hb0; simpl; rewrite ?Hbb, ?Hb0; done|]);
      (split; [first [by left | right; unfold burst_guard; simpl; done]|]);
      exact Hflt.
Qed.

(** What one turn of the loop does to the state of [main], however it
    ends. *)
Lemma main_step_facts fuel now burst zrec s :
  let '(st, s1, eff) :=
    main_step FillHeaderBuffer SetConfig yesredis fuel now burst zrec s in
  (configknown s = true →
   config (clk s1) = config (clk s) ∧ configknown s1 = true)
  ∧ (synced (alltime s) (clk s) → synced (alltime s1) (clk s1))
  ∧ l2 (stat (clk s1)) = l2 (stat (clk s)) + Z.of_nat (outzdabs eff)
  ∧ (outzdabs eff ≤ 1)%nat
  ∧ (burstbool (stat (clk s)) = true → burstbool (stat (clk s1)) = true)
  ∧ (burst_calls eff = 0%nat ∨ burst_guard (hits s1) (config (clk s1)))
  ∧ (st = Continue →
     recordn (count s1) = u64 (recordn (count s) + 1)
     ∧ l1 (stat (clk s1)) = l1 (stat (clk s)) + 1)
  ∧ (length (stats s) = 8%nat →
     length (stats s1) = 8%nat
     ∧ ((eventn (count s1) = eventn (count s)
         ∧ bucket_total (stats s1) = bucket_total (stats s))
        ∨ (st = Continue ∧ eventn (count s1) = u64 (eventn (count s) + 1)
           ∧ bucket_total (stats s1) = bucket_total (stats s) + 1))).
Proof.
  unfold main_step.
  pose proof (header_facts zrec s) as Hh.
  destruct (header FillHeaderBuffer SetConfig zrec s) as [s0 e0].
  destruct Hh as (Ho0 & Hb0 & Ha0 & Hh0 & Hc0 & Hs0 & Hstd0 & Hst0 & Hk0 & Hk0').
  assert (synced (alltime s) (clk s) → synced (alltime s0) (clk s0)) as Hsyn0
    by (unfold synced; rewrite Ha0, Hstd0; done).
  destruct (ReadHits fuel zrec (hits s0)) as [ret z1 h1 e1| |] eqn:Hread.
  - pose proof (ReadHits_quiet _ _ _ _ _ _ _ Hread) as [Ho1 Hb1].
    destruct (decide (ret = 0)) as [->|Hret].
    + pose proof (event_facts now burst z1 (set_hits h1 s0)) as He.
      destruct (event SetConfig yesredis now burst z1 (set_hits h1 s0))
        as [s3 e3].
      destruct He as (Hc3 & Hh3 & Hk3 & Hcfg3 & Hsyn3 & Hl13 & Hl23 & Ho3
                      & Hbb3 & Hg3 & Hst3).
      simpl in *.
      rewrite !outzdabs_app, !burst_calls_app, Ho0, Hb0, Ho1, Hb1. simpl.
      split; [intros Hk; rewrite (Hk0 Hk) in *; split; [by apply Hcfg3|done]|].
      split; [by intros Hs; apply Hsyn3, Hsyn0|].
      split; [rewrite Hl23, Hst0; done|]. split; [done|].
      split; [by rewrite Hst0 in Hbb3|]. split; [done|].
      split; [intros _; rewrite Hc3, Hl13, Hst0, Hc0; simpl; split; [done|lia]|].
      intros Hlen. rewrite Hs0 in Hst3. destruct (Hst3 Hlen) as [Hl8 Ht].
      split; [done|]. right. rewrite Hc3, Hc0. done.
    + simpl.
      rewrite !outzdabs_app, !burst_calls_app, Ho0, Hb0, Ho1, Hb1. simpl.
      split; [intros Hk; rewrite (Hk0 Hk); done|].
      split; [done|].
      split; [rewrite Hst0; unfold outzdabs; simpl; lia|].
      split; [unfold outzdabs; simpl; lia|].
      split; [by rewrite Hst0|]. split; [by left|].
      split; [intros _; rewrite Hc0, Hst0; split; [done|lia]|].
      intros Hlen. rewrite Hs0, Hc0. split; [done|]. by left.
  - rewrite Ho0, Hb0.
    split; [intros Hk; rewrite (Hk0 Hk); done|].
    split; [done|]. split; [rewrite Hst0; simpl; lia|]. split; [lia|].
    split; [by rewrite Hst0|]. split; [by left|].
    split; [done|]. intros Hlen. rewrite Hs0, Hc0. split; [done|]. by left.
  - rewrite Ho0, Hb0.
    split; [intros Hk; rewrite (Hk0 Hk); done|].
    split; [done|]. split; [rewrite Hst0; simpl; lia|]. split; [lia|].
    split; [by rewrite Hst0|]. split; [by left|].
    split; [done|]. intros Hlen. rewrite Hs0, Hc0. split; [done|]. by left.
Qed.

(** The same over the records of a file. *)
Lemma main_loop_facts fuel recs : ∀ s,
  let '(st, s1, eff) :=
    main_loop FillHeaderBuffer SetConfig yesredis fuel recs s in
  (configknown s = true →
   config (clk s1) = config (clk s) ∧ configknown s1 = true)
  ∧ (synced (alltime s) (clk s) → synced (alltime s1) (clk s1))
  ∧ l2 (stat (clk s1)) = l2 (stat (clk s)) + Z.of_nat (outzdabs eff)
  ∧ (outzdabs eff ≤ length recs)%nat
  ∧ (burstbool (stat (clk s)) = true → burstbool (stat (clk s1)) = true)
  ∧ (st = Continue →
     l1 (stat (clk s1)) = l1 (stat (clk s)) + Z.of_nat (length recs)
     ∧ (0 ≤ recordn (count s) < 2 ^ 64 →
        recordn (count s1) = u64 (recordn (count s) + Z.of_nat (length recs))))
  ∧ (length (stats s) = 8%nat → 0 ≤ eventn (count s) < 2 ^ 64 →
     length (stats s1) = 8%nat
     ∧ ∃ k, 0 ≤ k ≤ Z.of_nat (length recs)
         ∧ eventn (count s1) = u64 (eventn (count s) + k)
         ∧ bucket_total (stats s1) = bucket_total (stats s) + k).
Proof.
  assert (∀ x, 0 ≤ x < 2 ^ 64 → u64 (x + 0) = x) as Hu0
    by (intros x Hx; unfold u64; rewrite Z.add_0_r; by apply Z.mod_small).
  assert (∀ x, 0 ≤ u64 x < 2 ^ 64) as Hur
    by (intros x; unfold u64; apply Z.mod_pos_bound; lia).
  induction recs as [|[[now burst] zrec] recs IH]; intros s.
  { cbn [main_loop length outzdabs List.filter]. change (Z.of_nat 0) with 0.
    split; [done|]. split; [done|]. split; [lia|]. split; [lia|].
    split; [done|]. split.
    - intros _. split; [lia|]. intros Hr. by rewrite Hu0.
    - intros Hlen He. split; [done|]. exists 0. rewrite Hu0 by done.
      repeat split; lia. }
  cbn [main_loop].
  pose proof (main_step_facts fuel now burst zrec s) as Hstep.
  destruct (main_step FillHeaderBuffer SetConfig yesredis fuel now burst zrec s)
    as [[st s0] e0].
  destruct Hstep as (Hk & Hsyn & Hl2 & Ho & Hbb & _ & Hrec & Hst).
  assert (st ≠ Continue →
          (configknown s = true →
           config (clk s0) = config (clk s) ∧ configknown s0 = true)
          ∧ (synced (alltime s) (clk s) → synced (alltime s0) (clk s0))
          ∧ l2 (stat (clk s0)) = l2 (stat (clk s)) + Z.of_nat (outzdabs e0)
          ∧ (outzdabs e0 ≤ length ((now, burst, zrec) :: recs))%nat
          ∧ (burstbool (stat (clk s)) = true → burstbool (stat (clk s0)) = true)
          ∧ (length (stats s) = 8%nat → 0 ≤ eventn (count s) < 2 ^ 64 →
             length (stats s0) = 8%nat
             ∧ ∃ k, 0 ≤ k ≤ Z.of_nat (length ((now, burst, zrec) :: recs))
                 ∧ eventn (count s0) = u64 (eventn (count s) + k)
                 ∧ bucket_total (stats s0) = bucket_total (stats s) + k))
    as Hstop.
  { intros Hne. repeat split; try done; try apply Hk; try apply Hsyn; try done.
    - simpl; lia.
    - by apply Hst.
    - destruct (Hst H) as [_ [[He Ht]|[? _]]]; [|done].
      exists 0. rewrite He, Ht, Hu0 by done. simpl. repeat split; lia. }
  destruct st.
  2,3: destruct (Hstop ltac:(done)) as (H1 & H2 & H3 & H4 & H5 & H6);
       (split; [exact H1|]); (split; [exact H2|]); (split; [exact H3|]);
       (split; [exact H4|]); (split; [exact H5|]);
       (split; [intros ?; discriminate|]); exact H6.
  clear Hstop.
  specialize (IH s0).
  destruct (main_loop FillHeaderBuffer SetConfig yesredis fuel recs s0)
    as [[st1 s1] e1].
  destruct IH as (Hk1 & Hsyn1 & Hl21 & Ho1 & Hbb1 & Hrec1 & Hst1).
  rewrite outzdabs_app. cbn [length].
  split.
  { intros Hc. destruct (Hk Hc) as [Hc0 Hk0]. destruct (Hk1 Hk0) as [Hc1 ?].
    split; [congruence|done]. }
  split; [auto|]. split; [lia|]. split; [lia|]. split; [auto|].
  split.
  { intros ->. destruct (Hrec eq_refl) as [Hr0 Hl0].
    destruct (Hrec1 eq_refl) as [Hl1 Hr1].
    split; [lia|]. intros Hr.
    rewrite Hr1 by (rewrite Hr0; apply Hur).
    rewrite Hr0, u64_succ_succ. f_equal. lia. }
  intros Hlen He. destruct (Hst Hlen) as [Hlen0 Hcase].
  assert (∃ k0, 0 ≤ k0 ≤ 1 ∧ eventn (count s0) = u64 (eventn (count s) + k0)
                ∧ bucket_total (stats s0) = bucket_total (stats s) + k0)
    as (k0 & Hk0r & He0 & Ht0).
  { destruct Hcase as [[He0 Ht0]|(_ & He0 & Ht0)].
    - exists 0. rewrite He0, Ht0, Hu0 by done. repeat split; lia.
    - exists 1. repeat split; (done || lia). }
  destruct (Hst1 Hlen0) as [Hlen1 (k1 & Hk1r & He1 & Ht1)];
    [rewrite He0; apply Hur|].
  split; [done|]. exists (k0 + k1).
  rewrite He1, He0, u64_succ_succ, Ht1, Ht0. repeat split; lia.
Qed.

(** X19.  Every record of a file that is read to its end is counted
    once in the record count of the run. *)
Theorem every_record_is_counted fuel recs s s1 eff :
  main_loop FillHeaderBuffer SetConfig yesredis fuel recs s = (Continue, s1, eff) →
  0 ≤ recordn (count s) < 2 ^ 64 →
  recordn (count s1) = u64 (recordn (count s) + Z.of_nat (length recs)).
Proof.
  intros Hrun Hr. pose proof (main_loop_facts fuel recs s) as H.
  rewrite Hrun in H. by apply H.
Qed.

(** X20.  The eight buckets hold the events: over any run of the loop the
    array stays eight long and its total grows by exactly the number of
    records counted as events, at most one for each record read. *)
Theorem buckets_count_the_events fuel recs s :
  length (stats s) = 8%nat → 0 ≤ eventn (count s) < 2 ^ 64 →
  let '(st, s1, eff) :=
    main_loop FillHeaderBuffer SetConfig yesredis fuel recs s in
  length (stats s1) = 8%nat
  ∧ ∃ k, 0 ≤ k ≤ Z.of_nat (length recs)
      ∧ eventn (count s1) = u64 (eventn (count s) + k)
      ∧ bucket_total (stats s1) = bucket_total (stats s) + k.
Proof.
  intros Hlen He. pose proof (main_loop_facts fuel recs s) as H.
  destruct (main_loop FillHeaderBuffer SetConfig yesredis fuel recs s)
    as [[st s1] eff].
  by apply H.
Qed.

(** X21.  Once a configuration is known, by a run header or by default,
    no later record replaces it. *)
Theorem known_configuration_is_kept fuel recs s :
  configknown s = true →
  let '(st, s1, eff) :=
    main_loop FillHeaderBuffer SetConfig yesredis fuel recs s in
  config (clk s1) = config (clk s) ∧ configknown s1 = true.
Proof.
  intros Hk. pose proof (main_loop_facts fuel recs s) as H.
  destruct (main_loop FillHeaderBuffer SetConfig yesredis fuel recs s)
    as [[st s1] eff].
  by apply H.
Qed.

(** X22.  The time state [main] carries and the last good time of
    [compute_times] stay in step: if they agree on the 50MHz tick, the
    epoch and the long time, they still do after any run of the loop,
    through accepted, rejected, reset and orphan records alike. *)
Theorem clock_stays_synced fuel recs s :
  synced (alltime s) (clk s) →
  let '(st, s1, eff) :=
    main_loop FillHeaderBuffer SetConfig yesredis fuel recs s in
  synced (alltime s1) (clk s1).
Proof.
  intros Hs. pose proof (main_loop_facts fuel recs s) as H.
  destruct (main_loop FillHeaderBuffer SetConfig yesredis fuel recs s)
    as [[st s1] eff].
  by apply H.
Qed.


(** X24.  A record of another bank passes through: it is handed to the
    output writer as it came, it is counted as a record and not as an
    event, and the time state, the decoded hit and the buckets stay as
    they were. *)
Theorem other_records_pass_through fuel now burst zrec s :
  bank_name zrec ≠ ZDAB_RECORD →
  ∃ s1,
    main_step FillHeaderBuffer SetConfig yesredis fuel now burst zrec s
    = (Continue, s1, (header FillHeaderBuffer SetConfig zrec s).2 ++ [OutZdab zrec])
    ∧ alltime s1 = alltime s ∧ hits s1 = hits s ∧ stats s1 = stats s
    ∧ eventn (count s1) = eventn (count s)
    ∧ recordn (count s1) = u64 (recordn (count s) + 1)
    ∧ standard (clk s1) = standard (clk s)
    ∧ l2 (stat (clk s1)) = l2 (stat (clk s)) + 1.
Proof.
  intros Hb. unfold main_step.
  pose proof (header_facts zrec s) as Hh.
  destruct (header FillHeaderBuffer SetConfig zrec s) as [s0 e0].
  destruct Hh as (_ & _ & Ha0 & Hh0 & Hc0 & Hs0 & Hstd0 & Hst0 & _).
  unfold ReadHits. rewrite decide_True by done.
  rewrite decide_False by done. simpl.
  eexists. split; [reflexivity|]. simpl.
  rewrite Ha0, Hh0, Hc0, Hs0, Hstd0, Hst0. destruct (hits s). done.
Qed.

(** X25.  The first hit record of a run sets the clocks from its reading:
    with the counters from [CountInit] and the time state from
    [InitTime], the 50MHz tick and the long time become the reading (the
    epoch from [GetEpoch] is kept but not yet counted in the long time),
    the wall time becomes the current second with no previous second, the
    reading becomes the last good time and no fault is pending. *)
Theorem first_hit_sets_the_clocks now burst zrec s uninit GetEpoch :
  count s = CountInit → alltime s = InitTime uninit GetEpoch →
  let s1 := (event SetConfig yesredis now burst zrec s).1 in
  eventn (count s1) = 1
  ∧ time50 (alltime s1) = hit_time50 (hits s)
  ∧ time10 (alltime s1) = hit_time10 (hits s)
  ∧ longtime (alltime s1) = hit_time50 (hits s)
  ∧ epoch (alltime s1) = GetEpoch
  ∧ walltime (alltime s1) = now ∧ oldwalltime (alltime s1) = 0
  ∧ time50 (standard (clk s1)) = hit_time50 (hits s)
  ∧ longtime (standard (clk s1)) = hit_time50 (hits s)
  ∧ problem (clk s1) = false.
Proof.
  intros Hc Ha. unfold event. rewrite Hc, Ha.
  unfold compute_times. change (eventn (incr_eventn CountInit)) with 1.
  rewrite decide_True by done. unfold first_event.
  set (c1 := if decide (time50 (reading (hits s) (InitTime uninit GetEpoch)) = 0)
             then _ else clk s).
  assert (config c1 = config (clk s) ∧ NHITCUT c1 = NHITCUT (clk s)) as [Hcfg Hcut]
    by (subst c1; by case_decide).
  clearbody c1.
  destruct uninit as [t10 t50 lt ep wt owt ex].
  unfold InitTime, reading, updatetime. simpl.
  destruct (configknown s); simpl;
    match goal with
    | |- context [setthreshold ?n ?a ?cf ?ct] =>
        pose proof (setthreshold_times n a cf ct) as (Ht & He & Hl);
        assert (time10 (setthreshold n a cf ct).1 = time10 a
                ∧ walltime (setthreshold n a cf ct).1 = walltime a
                ∧ oldwalltime (setthreshold n a cf ct).1 = oldwalltime a)
          as (Ht10 & Hw & How)
          by (unfold setthreshold; repeat case_decide; done);
        destruct (setthreshold n a cf ct) as [at3 cut]
    end; simpl in *;
    repeat case_decide;
    match goal with
    | |- context [l2filter ?a ?b ?c ?d ?e ?f ?g] =>
        destruct (l2filter a b c d e f g) as [[] stats1]
    end; simpl; repeat split; done.
Qed.

End Loop.

Lemma every_record_is_counted_witness :
  main_loop no_runtype one_config false 1 three_records main0
  = (Continue, (main_loop no_runtype one_config false 1 three_records main0).1.2,
     (main_loop no_runtype one_config false 1 three_records main0).2)
  ∧ recordn (count (main_loop no_runtype one_config false 1 three_records
                      main0).1.2) = 3.
Proof.
  assert (main_loop no_runtype one_config false 1 three_records main0
          = (Continue,
             (main_loop no_runtype one_config false 1 three_records main0).1.2,
             (main_loop no_runtype one_config false 1 three_records main0).2))
    as Hrun by reflexivity.
  split; [exact Hrun|].
  rewrite (every_record_is_counted no_runtype one_config false 1
             three_records main0 _ _ Hrun ltac:(simpl; lia)).
  reflexivity.
Defined.

Lemma buckets_count_the_events_witness :
  length (stats main0) = 8%nat
  ∧ length (stats (main_loop no_runtype one_config false 1 three_records
                     main0).1.2) = 8%nat.
Proof.
  split; [reflexivity|].
  pose proof (buckets_count_the_events no_runtype one_config false 1
                three_records main0 eq_refl ltac:(simpl; lia)) as H.
  destruct (main_loop no_runtype one_config false 1 three_records main0)
    as [[st s1] eff].
  apply H.
Defined.

Lemma known_configuration_is_kept_witness :
  configknown main0 = true
  ∧ config (clk (main_loop rhdr_everywhere one_config false 1 three_records
                   main0).1.2) = cfg0.
Proof.
  split; [reflexivity|].
  pose proof (known_configuration_is_kept rhdr_everywhere one_config false 1
                three_records main0 eq_refl) as H.
  destruct (main_loop rhdr_everywhere one_config false 1 three_records main0)
    as [[st s1] eff].
  apply H.
Defined.

Lemma clock_stays_synced_witness :
  synced (alltime main0) (clk main0)
  ∧ synced (alltime (main_loop no_runtype one_config false 1 three_records
                       main0).1.2)
           (clk (main_loop no_runtype one_config false 1 three_records
                   main0).1.2).
Proof.
  assert (synced (alltime main0) (clk main0)) as Hs by (repeat split).
  split; [exact Hs|].
  pose proof (clock_stays_synced no_runtype one_config false 1 three_records
                main0 Hs) as H.
  destruct (main_loop no_runtype one_config false 1 three_records main0)
    as [[st s1] eff].
  exact H.
Defined.

Lemma other_records_pass_through_witness :
  bank_name other_bank ≠ ZDAB_RECORD
  ∧ (main_step no_runtype one_config false 1 1 false other_bank main0).2
    = [OutZdab other_bank].
Proof.
  assert (bank_name other_bank ≠ ZDAB_RECORD) as Hb by (by vm_compute).
  split; [exact Hb|].
  destruct (other_records_pass_through no_runtype one_config false 1 1 false
              other_bank main0 Hb) as (s1 & -> & _).
  reflexivity.
Defined.

Lemma first_hit_sets_the_clocks_witness :
  count main0 = CountInit ∧ alltime main0 = InitTime time0 0
  ∧ eventn (count (event one_config false 1 false one_hit main0).1) = 1.
Proof.
  split; [reflexivity|]. split; [reflexivity|].
  exact (proj1 (first_hit_sets_the_clocks one_config false 1 false one_hit main0
                  time0 0 eq_refl eq_refl)).
Defined.

(** X26.  With the statistics database switched off, so that [gtid] and
    [Writetoredis], which are handed the statistics, are not called: over
    any run of the loop the count of records passed on grows by the
    number of records handed to the output writer, at most one for each
    record read, and over a file read to its end the count of records
    seen grows by the number of records. *)
Theorem statistics_count_the_records FillHeaderBuffer SetConfig fuel recs s :
  let '(st, s1, eff) := main_loop FillHeaderBuffer SetConfig false fuel recs s in
  l2 (stat (clk s1)) = l2 (stat (clk s)) + Z.of_nat (outzdabs eff)
  ∧ (outzdabs eff ≤ length recs)%nat
  ∧ (st = Continue →
     l1 (stat (clk s1)) = l1 (stat (clk s)) + Z.of_nat (length recs)).
Proof.
  pose proof (main_loop_facts FillHeaderBuffer SetConfig false fuel recs s) as H.
  destruct (main_loop FillHeaderBuffer SetConfig false fuel recs s)
    as [[st s1] eff].
  destruct H as (_ & _ & Hl2 & Ho & _ & Hl1 & _).
  split; [done|]. split; [done|]. intros Hst. by apply Hl1.
Qed.

(** X27.  With the statistics database switched off, the burst flag of
    the statistics is sticky: once set, no record clears it. *)
Theorem burst_flag_is_sticky FillHeaderBuffer SetConfig fuel recs s :
  burstbool (stat (clk s)) = true →
  let '(st, s1, eff) := main_loop FillHeaderBuffer SetConfig false fuel recs s in
  burstbool (stat (clk s1)) = true.
Proof.
  intros Hb.
  pose proof (main_loop_facts FillHeaderBuffer SetConfig false fuel recs s) as H.
  destruct (main_loop FillHeaderBuffer SetConfig false fuel recs s)
    as [[st s1] eff].
  by apply H.
Qed.

Lemma burst_flag_is_sticky_witness :
  burstbool (stat (clk main_bursting)) = true
  ∧ burstbool (stat (clk (main_loop no_runtype one_config false 1 three_records
                            main_bursting).1.2)) = true.
Proof.
  split; [reflexivity|].
  pose proof (burst_flag_is_sticky no_runtype one_config 1 three_records
                main_bursting eq_refl) as H.
  destruct (main_loop no_runtype one_config false 1 three_records main_bursting)
    as [[st s1] eff].
  exact H.
Defined.

End LoopFacts.

(* ===================================================================== *)
(** * The threshold window in the loop *)
(* ===================================================================== *)

Module ThresholdInLoop.
Import Stonehenge.

(** A reading that is taken over leaves the expiry, the active cut and
    the configuration as they were. *)
Lemma compute_times_taken hits oldat count c :
  eventn count = 1 ∨ hit_time50 hits = 0 ∨ ¬ rejected hits oldat c →
  exptime (compute_times hits oldat count c).1.1 = exptime oldat
  ∧ NHITCUT (compute_times hits oldat count c).1.2 = NHITCUT c
  ∧ config (compute_times hits oldat count c).1.2 = config c.
Proof.
  intros Ht. unfold compute_times, first_event, later_event.
  destruct (decide (eventn count = 1)) as [|Hn].
  { case_decide; by destruct oldat. }
  set (c1 := if decide (is_retrigger _ _ _) then set_retrig true c else _).
  assert (standard c1 = standard c ∧ NHITCUT c1 = NHITCUT c
          ∧ config c1 = config c) as (Hs & Hc & Hg)
    by (subst c1; by case_decide).
  destruct (decide (time50 (reading hits oldat) = 0)) as [|Hz].
  { simpl. by destruct oldat. }
  assert (¬ rejected hits oldat c) as Hacc.
  { destruct Ht as [?|[H0|?]]; [done| |done].
    exfalso. apply Hz. by destruct oldat. }
  unfold rejected in Hacc. unfold well_ordered. rewrite Hs.
  assert (exptime (IsConsistent (reading hits oldat) (standard c)
                    (drift oldat (reading hits oldat))).1.2 = exptime oldat)
    as Hx.
  { unfold IsConsistent, jump_check. repeat case_decide; by destruct oldat. }
  destruct (IsConsistent _ _ _) as [[ok newat] eff]; simpl in *.
  destruct ok; [|done]. simpl. by destruct newat.
Qed.

(** [updatetime] leaves the long time and the expiry. *)
Lemma updatetime_window now a :
  longtime (updatetime now a) = longtime a
  ∧ exptime (updatetime now a) = exptime a.
Proof. unfold updatetime. destruct a. by case_decide. Qed.

Section Loop.

Variable FillHeaderBuffer : nZDAB → Z.
Variable SetConfig : Z → configuration.
Variable yesredis : bool.

(** What [event] leaves of the threshold: the time state and the cut are
    those [setthreshold] returns for the time [compute_times] and
    [updatetime] give it. *)
Lemma event_threshold now burst zrec s :
  configknown s = true →
  let ct := compute_times (hits s) (alltime s) (incr_eventn (count s)) (clk s) in
  let s1 := (event SetConfig yesredis now burst zrec s).1 in
  (alltime s1, NHITCUT (clk s1))
  = setthreshold (u16 (nhit (hits s))) (updatetime now ct.1.1)
                 (config ct.1.2) (NHITCUT ct.1.2)
  ∧ config (clk s1) = config ct.1.2 ∧ configknown s1 = true.
Proof.
  intros Hk. unfold event. rewrite Hk.
  destruct (compute_times _ _ _ _) as [[at1 c1] e1]. simpl.
  destruct (setthreshold _ _ _ _) as [at3 cut]. simpl.
  repeat case_decide;
    match goal with
    | |- context [l2filter ?a ?b ?c ?d ?e ?f ?g] =>
        destruct (l2filter a b c d e f g) as [[] stats1]
    end; done.
Qed.

(** The turn of the loop for a record, with a configuration known. *)
Lemma main_step_decoded fuel now burst zrec s :
  configknown s = true →
  match decoded FillHeaderBuffer SetConfig fuel zrec s with
  | Some s0 =>
      configknown s0 = true ∧ alltime s0 = alltime s ∧ clk s0 = clk s
      ∧ count s0 = count s
      ∧ ∃ zrec1 eff,
          main_step FillHeaderBuffer SetConfig yesredis fuel now burst zrec s
          = (Continue, bump (event SetConfig yesredis now burst zrec1 s0).1, eff)
  | None =>
      let '(st, s1, eff) :=
        main_step FillHeaderBuffer SetConfig yesredis fuel now burst zrec s in
      configknown s1 = true ∧ alltime s1 = alltime s
      ∧ NHITCUT (clk s1) = NHITCUT (clk s) ∧ config (clk s1) = config (clk s)
  end.
Proof.
  intros Hk. unfold decoded, main_step.
  pose proof (LoopFacts.header_facts FillHeaderBuffer SetConfig zrec s) as Hh.
  destruct (header FillHeaderBuffer SetConfig zrec s) as [s0 e0].
  destruct Hh as (_ & _ & _ & _ & _ & _ & _ & _ & Hs0 & _).
  rewrite (Hs0 Hk). simpl.
  destruct (ReadHits fuel zrec (hits s)) as [ret z1 h1 e1| |]; [|done..].
  destruct (decide (ret = 0)) as [->|Hret].
  - simpl. repeat split; try done.
    exists z1.
    destruct (event SetConfig yesredis now burst z1 (set_hits h1 s)) as [s3 e3].
    by eexists.
  - simpl. done.
Qed.


(** A record above [lothresh] processed as an event arms the window at
    the long time the turn leaves. *)
Lemma arming_turn fuel now burst zrec s s0 st sA eA :
  configknown s = true →
  decoded FillHeaderBuffer SetConfig fuel zrec s = Some s0 →
  u16 (nhit (hits s0)) > lothresh (config (clk s)) →
  main_step FillHeaderBuffer SetConfig yesredis fuel now burst zrec s
  = (st, sA, eA) →
  0 ≤ lowindow (config (clk s)) → 0 ≤ longtime (alltime sA) →
  longtime (alltime sA) + lowindow (config (clk s)) < 2 ^ 64 →
  st = Continue ∧ configknown sA = true ∧ config (clk sA) = config (clk s)
  ∧ exptime (alltime sA) = longtime (alltime sA) + lowindow (config (clk s))
  ∧ NHITCUT (clk sA) = nhitlo (config (clk s)).
Proof.
  intros Hk Hd Hn Hstep Hw H0 Hb.
  pose proof (main_step_decoded fuel now burst zrec s Hk) as Hm.
  rewrite Hd in Hm. destruct Hm as (Hk0 & Ha0 & Hc0 & _ & z1 & eff & Hm).
  rewrite Hstep in Hm. injection Hm as -> -> ->.
  pose proof (event_threshold now burst z1 s0 Hk0) as (Hthr & Hcfg & Hk1).
  pose proof (LoopFacts.compute_times_frame (hits s0) (alltime s0)
                (incr_eventn (count s0)) (clk s0)) as (_ & _ & Hg & _).
  cbv zeta in Hthr, Hcfg.
  set (ct := compute_times (hits s0) (alltime s0) (incr_eventn (count s0))
               (clk s0)) in *.
  rewrite Hg, Hc0 in Hthr, Hcfg.
  cbn [bump set_count set_clk set_stat alltime clk NHITCUT config configknown] in *.
  pose proof (LoopFacts.setthreshold_times (u16 (nhit (hits s0)))
                (updatetime now ct.1.1) (config (clk s)) (NHITCUT ct.1.2))
    as (_ & _ & Hl).
  rewrite <- Hthr in Hl. cbn [fst] in Hl.
  rewrite Threshold.setthreshold_arm in Hthr by (done || lia).
  injection Hthr as Ha Hc.
  repeat split; try done.
  rewrite Hl, Ha. unfold updatetime. by case_decide.
Qed.

(** A calm turn keeps the expiry, and the cut it leaves is the low one up
    to the expiry and the high one after it. *)
Lemma calm_turn fuel now burst zrec s cfg E :
  configknown s = true → config (clk s) = cfg → exptime (alltime s) = E →
  NHITCUT (clk s)
  = (if decide (longtime (alltime s) ≤ E) then nhitlo cfg else nhithi cfg) →
  calm FillHeaderBuffer SetConfig fuel zrec s →
  let '(st, s1, eff) :=
    main_step FillHeaderBuffer SetConfig yesredis fuel now burst zrec s in
  configknown s1 = true ∧ config (clk s1) = cfg ∧ exptime (alltime s1) = E
  ∧ NHITCUT (clk s1)
    = (if decide (longtime (alltime s1) ≤ E) then nhitlo cfg else nhithi cfg)
  ∧ longtime (alltime s) ≤ longtime (alltime s1).
Proof.
  intros Hk Hcfg HE Hcut Hcalm.
  pose proof (main_step_decoded fuel now burst zrec s Hk) as Hm.
  unfold calm in Hcalm.
  destruct (decoded FillHeaderBuffer SetConfig fuel zrec s) as [s0|].
  - destruct Hm as (Hk0 & Ha0 & Hc0 & _ & z1 & eff & ->).
    destruct Hcalm as (Ht & Hn & Hmono).
    pose proof (event_threshold now burst z1 s0 Hk0) as (Hthr & Hcfg1 & Hk1).
    pose proof (compute_times_taken _ _ _ _ Ht) as (Hx & Hc & Hg).
    cbv zeta in Hthr, Hcfg1.
    set (ct := compute_times (hits s0) (alltime s0) (incr_eventn (count s0))
                 (clk s0)) in *.
    pose proof (updatetime_window now ct.1.1) as [Hul Hux].
    rewrite Threshold.setthreshold_idle in Hthr by (by rewrite Hg).
    pose proof (f_equal fst Hthr) as Ha. pose proof (f_equal snd Hthr) as Hc1.
    cbn [fst snd] in Ha, Hc1. clear Hthr.
    rewrite Hul, Hux, Hx, Hc, Hg, Hc0, Ha0, HE, Hcfg in Hc1.
    rewrite Hg, Hc0, Hcfg in Hcfg1.
    assert (longtime (alltime (event SetConfig yesredis now burst z1 s0).1)
            = longtime ct.1.1) as Hlong by (by rewrite Ha).
    assert (exptime (alltime (event SetConfig yesredis now burst z1 s0).1) = E)
      as Hexp by (by rewrite Ha, Hux, Hx, Ha0).
    rewrite Ha0 in Hmono.
    cbn [bump set_count set_clk set_stat alltime clk NHITCUT config configknown].
    rewrite Hlong, Hc1, Hcut.
    split; [done|]. split; [done|]. split; [done|]. split; [|done].
    repeat case_decide; (done || lia).
  - destruct (main_step FillHeaderBuffer SetConfig yesredis fuel now burst zrec s)
      as [[st s1] eff].
    destruct Hm as (Hk1 & Ha1 & Hc1 & Hg1).
    rewrite Hk1, Ha1, Hc1, Hg1. repeat split; (done || lia).
Qed.

(** The same over a calm run, up to any of its records. *)
Lemma quiet_run_window fuel cfg E pre post : ∀ s,
  configknown s = true → config (clk s) = cfg → exptime (alltime s) = E →
  NHITCUT (clk s)
  = (if decide (longtime (alltime s) ≤ E) then nhitlo cfg else nhithi cfg) →
  quiet_run FillHeaderBuffer SetConfig yesredis fuel (pre ++ post) s →
  let '(st, s1, eff) :=
    main_loop FillHeaderBuffer SetConfig yesredis fuel pre s in
  exptime (alltime s1) = E
  ∧ NHITCUT (clk s1)
    = (if decide (longtime (alltime s1) ≤ E) then nhitlo cfg else nhithi cfg)
  ∧ longtime (alltime s) ≤ longtime (alltime s1).
Proof.
  induction pre as [|[[now burst] zrec] pre IH]; intros s Hk Hcfg HE Hcut Hq.
  { cbn [main_loop]. repeat split; (done || lia). }
  cbn [main_loop]. rewrite <- app_comm_cons in Hq. cbn [quiet_run] in Hq.
  destruct Hq as [Hcalm Hq].
  pose proof (calm_turn fuel now burst zrec s cfg E Hk Hcfg HE Hcut Hcalm) as Ht.
  destruct (main_step FillHeaderBuffer SetConfig yesredis fuel now burst zrec s)
    as [[st s0] e0].
  destruct Ht as (Hk0 & Hcfg0 & HE0 & Hcut0 & Hmono).
  destruct st; [|done..].
  specialize (IH s0 Hk0 Hcfg0 HE0 Hcut0 Hq).
  destruct (main_loop FillHeaderBuffer SetConfig yesredis fuel pre s0)
    as [[st1 s1] e1].
  destruct IH as (? & ? & ?). repeat split; (done || lia).
Qed.

(** C8.  A record with more than [lothresh] hits that the loop processes
    as an event arms the window: with [T] the long time the turn leaves,
    [exptime = T + lowindow] and the low cut is selected.  Over the
    records that follow, as long as the reading of none is rejected,
    none arms the window again and the long time does not go back, the
    expiry stays and the cut each turn leaves is the low cut while the
    long time is at most [T + lowindow] and the high cut once it is
    after it, whatever the hit counts. *)
Theorem hysteresis_in_the_loop fuel now burst zrec pre post s s0 st sA eA :
  configknown s = true →
  decoded FillHeaderBuffer SetConfig fuel zrec s = Some s0 →
  u16 (nhit (hits s0)) > lothresh (config (clk s)) →
  main_step FillHeaderBuffer SetConfig yesredis fuel now burst zrec s
  = (st, sA, eA) →
  0 ≤ lowindow (config (clk s)) → 0 ≤ longtime (alltime sA) →
  longtime (alltime sA) + lowindow (config (clk s)) < 2 ^ 64 →
  quiet_run FillHeaderBuffer SetConfig yesredis fuel (pre ++ post) sA →
  let cfg := config (clk s) in
  let T := longtime (alltime sA) in
  let '(st1, s1, eff) :=
    main_loop FillHeaderBuffer SetConfig yesredis fuel pre sA in
  st = Continue
  ∧ exptime (alltime sA) = T + lowindow cfg ∧ NHITCUT (clk sA) = nhitlo cfg
  ∧ exptime (alltime s1) = T + lowindow cfg
  ∧ T ≤ longtime (alltime s1)
  ∧ NHITCUT (clk s1)
    = (if decide (longtime (alltime s1) ≤ T + lowindow cfg)
       then nhitlo cfg else nhithi cfg).
Proof.
  intros Hk Hd Hn Hstep Hw H0 Hb Hq. cbv zeta.
  destruct (arming_turn fuel now burst zrec s s0 st sA eA Hk Hd Hn Hstep Hw H0 Hb)
    as (Hst & HkA & HcfgA & HE & Hcut).
  pose proof (quiet_run_window fuel (config (clk s))
                (longtime (alltime sA) + lowindow (config (clk s)))
                pre post sA HkA HcfgA HE) as Hrun.
  rewrite decide_True in Hrun by lia. specialize (Hrun Hcut Hq).
  destruct (main_loop FillHeaderBuffer SetConfig yesredis fuel pre sA)
    as [[st1 s1] eff].
  destruct Hrun as (? & ? & ?). done.
Qed.

End Loop.

(** A window of 1000 ticks armed at tick 1100 by the first event: low
    cut (20) after the record at tick 1200, high cut (30) after the
    record at tick 2101, a record of another bank in between. *)
Lemma hysteresis_in_the_loop_witness :
  quiet_run no_runtype one_config false 1 in_and_out
    (main_step no_runtype one_config false 1 1 false (timed_record 41 1100)
       main0).1.2
  ∧ NHITCUT (clk (main_loop no_runtype one_config false 1 (take 1 in_and_out)
                    (main_step no_runtype one_config false 1 1 false
                       (timed_record 41 1100) main0).1.2).1.2) = 20
  ∧ NHITCUT (clk (main_loop no_runtype one_config false 1 in_and_out
                    (main_step no_runtype one_config false 1 1 false
                       (timed_record 41 1100) main0).1.2).1.2) = 30.
Proof.
  assert (quiet_run no_runtype one_config false 1 in_and_out
            (main_step no_runtype one_config false 1 1 false
               (timed_record 41 1100) main0).1.2) as Hq.
  { vm_compute.
    repeat split; try discriminate; right; right; discriminate. }
  assert (decoded no_runtype one_config 1 (timed_record 41 1100) main0
          = Some (set_hits (mkHitinfo 1100 0 0 41 143 0 0) main0)) as Hd
    by (vm_compute; reflexivity).
  assert (main_step no_runtype one_config false 1 1 false (timed_record 41 1100)
            main0
          = (Continue,
             (main_step no_runtype one_config false 1 1 false
                (timed_record 41 1100) main0).1.2,
             (main_step no_runtype one_config false 1 1 false
                (timed_record 41 1100) main0).2)) as Hstep
    by (vm_compute; reflexivity).
  pose proof (λ pre post, hysteresis_in_the_loop no_runtype one_config false 1
                1 false (timed_record 41 1100) pre post main0 _ _ _ _ eq_refl
                Hd ltac:(vm_compute; reflexivity) Hstep
                ltac:(vm_compute; discriminate)
                ltac:(vm_compute; discriminate)
                ltac:(vm_compute; reflexivity)) as H.
  cbv zeta in H.
  split; [exact Hq|]. split.
  - specialize (H (take 1 in_and_out) (drop 1 in_and_out) Hq).
    remember (main_loop no_runtype one_config false 1 (take 1 in_and_out)
                (main_step no_runtype one_config false 1 1 false
                   (timed_record 41 1100) main0).1.2) as r eqn:Hr.
    destruct r as [[st1 s1] eff]. destruct H as (_ & _ & _ & _ & _ & H).
    apply (f_equal (λ r, longtime (alltime r.1.2))) in Hr.
    cbn [fst snd] in Hr |- *. rewrite H, Hr. vm_compute. reflexivity.
  - specialize (H in_and_out [] ltac:(by rewrite app_nil_r)).
    remember (main_loop no_runtype one_config false 1 in_and_out
                (main_step no_runtype one_config false 1 1 false
                   (timed_record 41 1100) main0).1.2) as r eqn:Hr.
    destruct r as [[st1 s1] eff]. destruct H as (_ & _ & _ & _ & _ & H).
    apply (f_equal (λ r, longtime (alltime r.1.2))) in Hr.
    cbn [fst snd] in Hr |- *. rewrite H, Hr. vm_compute. reflexivity.
Defined.

(** The claim without the proviso fails in the loop.  After the window
    is armed at tick 1100 (expiry 2100, low cut 20): a reading of 500 is
    rejected once, [compute_times] puts back the last good time, saved
    before the arming with the expiry it then had, and the record of 25
    hits at tick 1200 is filtered with the high cut and not written.
    And: after readings of 1900 and 1500, the reading of 1600 is the
    second rejected in a row, everything is reset, the expiry with it,
    and the record, at long time 1600, is filtered with the high cut.
    Without the rejected reading the record at tick 1200 is written. *)
Lemma rejection_ends_the_window :
  (∃ sA eA s1 e1,
     main_loop no_runtype one_config false 1 armed_at_1100 main0
     = (Continue, sA, eA)
     ∧ longtime (alltime sA) = 1100 ∧ exptime (alltime sA) = 2100
     ∧ NHITCUT (clk sA) = nhitlo cfg0
     ∧ main_loop no_runtype one_config false 1 one_strike main0
       = (Continue, s1, e1)
     ∧ nhit (hits s1) = 25
     ∧ 1100 < longtime (alltime s1) ≤ 1100 + lowindow cfg0
     ∧ NHITCUT (clk s1) = nhithi cfg0 ∧ nhithi cfg0 ≠ nhitlo cfg0
     ∧ resets e1 = 0%nat
     ∧ (OutZdab (timed_record 25 1200) ∉ e1)
     ∧ (OutZdab (timed_record 25 1200)
        ∈ (main_loop no_runtype one_config false 1 no_strike main0).2))
  ∧ (∃ s2 e2,
       main_loop no_runtype one_config false 1 two_strikes_run main0
       = (Continue, s2, e2)
       ∧ nhit (hits s2) = 25
       ∧ 1100 < longtime (alltime s2) ≤ 1100 + lowindow cfg0
       ∧ NHITCUT (clk s2) = nhithi cfg0
       ∧ resets e2 = 1%nat ∧ exptime (alltime s2) = 0).
Proof.
  split.
  - eexists _, _, _, _.
    split; [vm_compute; reflexivity|].
    split; [reflexivity|]. split; [reflexivity|]. split; [reflexivity|].
    split; [vm_compute; reflexivity|].
    split; [reflexivity|]. split; [vm_compute; split; [reflexivity|discriminate]|].
    split; [reflexivity|]. split; [discriminate|]. split; [reflexivity|].
    split.
    + rewrite !elem_of_cons, elem_of_nil. intros H.
      repeat (destruct H as [H|H]; [discriminate H|]). done.
    + assert ((main_loop no_runtype one_config false 1 no_strike main0).2
              = [Checkbuffer 1000; Flusherrors;
                 OutZdab (timed_record 41 1100);
                 OutZdab (timed_record 25 1200)]) as ->
        by (vm_compute; reflexivity).
      rewrite !elem_of_cons. auto.
  - eexists _, _.
    split; [vm_compute; reflexivity|].
    split; [reflexivity|]. split; [vm_compute; split; [reflexivity|discriminate]|].
    split; [reflexivity|]. split; reflexivity.
Qed.

End ThresholdInLoop.
